(** * Colour matching game (app.py): scoring and session state

    A shallow embedding of the core of [app.py]: the similarity score of two
    RGB triples ([calculate_similarity]) and the three functions that touch
    the Streamlit session state ([init_session_state], [reset_game],
    [submit_answer]).

    Python [int] is [Z]; Python [float] is the kernel's binary64 type
    [PrimFloat.float], so [math.sqrt], [/], [*] and [-] are the IEEE 754
    operations the interpreter runs.  Exceptions are an explicit [result];
    the session state and the random source are threaded explicitly. *)

From Stdlib Require Import ZArith List Bool Lia Floats.
From Stdlib Require Uint63 Ascii String.
Import ListNotations.
Local Open Scope Z_scope.

(** ** The Python runtime the program relies on *)

Module Py.

(** The exceptions that the operations used by [app.py] can raise. *)
Inductive exn : Set :=
| OverflowError
| ValueError
| ZeroDivisionError
| IndexError
| AttributeError.

Inductive result (A : Type) : Type :=
| Ok (a : A)
| Raise (e : exn).
Arguments Ok {A} a.
Arguments Raise {A} e.

Definition bind {A B : Type} (r : result A) (k : A -> result B) : result B :=
  match r with
  | Ok a => k a
  | Raise e => Raise e
  end.

(** A value that is either [None] or a float: what [current_score] holds
    and what the session functions hand back to their caller. *)
Inductive value : Set :=
| PyNone
| PyFloat (x : float).

(** [num / den] rounded to the nearest integer, ties to the even one
    ([0 < den]). *)
Definition div_half_even (num den : Z) : Z :=
  let q := num / den in
  let r := num mod den in
  match 2 * r ?= den with
  | Lt => q
  | Gt => q + 1
  | Eq => if Z.even q then q else q + 1
  end.

(** [int -> float] as [math.sqrt] and the mixed arithmetic operators do
    it: the integer is rounded to 53 significant bits, ties to even, and
    [OverflowError] ("int too large to convert to float") is raised when
    the rounded magnitude reaches [2^1024]. *)
Definition int_to_float (n : Z) : result float :=
  let a := Z.abs n in
  let sh := Z.max 0 (Z.log2 a + 1 - 53) in
  let m := div_half_even a (2 ^ sh) in
  if 1024 <=? Z.log2 m + sh then Raise OverflowError
  else
    let x := Z.ldexp (of_uint63 (Uint63.of_Z m)) sh in
    Ok (if n <? 0 then (- x)%float else x).

(** [math.sqrt] on a float: "math domain error" below zero. *)
Definition math_sqrt (x : float) : result float :=
  if (x <? 0)%float then Raise ValueError else Ok (PrimFloat.sqrt x).

(** [math.sqrt] applied to an [int]. *)
Definition math_sqrt_int (n : Z) : result float :=
  bind (int_to_float n) math_sqrt.

(** [x / y] on floats. *)
Definition float_truediv (x y : float) : result float :=
  if (y =? 0)%float then Raise ZeroDivisionError else Ok (x / y)%float.

(** [x * n] with [x] a float and [n] an [int]. *)
Definition float_mul_int (x : float) (n : Z) : result float :=
  bind (int_to_float n) (fun y => Ok (x * y)%float).

(** [n - x] with [n] an [int] and [x] a float. *)
Definition int_sub_float (n : Z) (x : float) : result float :=
  bind (int_to_float n) (fun y => Ok (y - x)%float).

(** The double nearest to [num / den] (what the decimal-to-binary
    conversion returns), for [0 <= num] and [0 < den]. *)
Definition nearest_float (num den : Z) : float :=
  match num with
  | Zpos p =>
      SF2Prim (SFdiv prec emax (S754_finite false p 0)
                     (S754_finite false (Z.to_pos den) 0))
  | _ => 0%float
  end.

(** [round(x, 1)]: the exact value of [x] is rounded to the nearest
    multiple of one tenth, ties to the even digit, and that decimal is
    converted back to the nearest double; the sign of [x] is kept.  NaN,
    the infinities and the zeros are returned as they are.  With one
    digit the result is never larger in magnitude than the next integer,
    so the "rounded value too large" error of [round] cannot occur. *)
Definition round1 (x : float) : float :=
  match Prim2SF x with
  | S754_finite s m e =>
      let k := if 0 <=? e then 10 * Zpos m * 2 ^ e
               else div_half_even (10 * Zpos m) (2 ^ (- e)) in
      let y := nearest_float k 10 in
      if s then (- y)%float else y
  | _ => x
  end.

(** [l.insert(i, x)] for [0 <= i]: an index past the end appends. *)
Definition list_insert {A : Type} (i : nat) (x : A) (l : list A) : list A :=
  firstn i l ++ x :: skipn i l.

(** [l.pop()]: the last element and the list without it. *)
Definition list_pop {A : Type} (l : list A) : result (A * list A) :=
  match rev l with
  | [] => Raise IndexError
  | x :: _ => Ok (x, removelast l)
  end.

End Py.
Import Py.

Declare Scope result_scope.
Delimit Scope result_scope with res.
Notation "x <- r ;; k" := (Py.bind r (fun x => k))
  (at level 61, r at next level, right associativity) : result_scope.

(** ** The similarity score *)

(** An RGB triple as the program passes it around: a tuple of three
    [int]s.  Nothing in the program checks the range of a channel. *)
Definition color : Set := (Z * Z * Z)%type.

Definition valid_channel (v : Z) : Prop := 0 <= v <= 255.

Definition valid_color (c : color) : Prop :=
  let '(r, g, b) := c in
  valid_channel r /\ valid_channel g /\ valid_channel b.

(** The integer under the first square root. *)
Definition squared_distance (target player : color) : Z :=
  let '(t0, t1, t2) := target in
  let '(p0, p1, p2) := player in
  (t0 - p0) ^ 2 + (t1 - p1) ^ 2 + (t2 - p2) ^ 2.

(** The body of [calculate_similarity] from the point where the integer
    under the first square root is known, up to the value that is handed
    to [round]. *)
Definition unrounded_similarity (n : Z) : result float :=
  (distance <- math_sqrt_int n ;;
   max_distance <- math_sqrt_int (255 ^ 2 * 3) ;;
   ratio <- float_truediv distance max_distance ;;
   scaled <- float_mul_int ratio 100 ;;
   int_sub_float 100 scaled)%res.

(** ... and with the final [round(similarity, 1)]. *)
Definition similarity_of_squared_distance (n : Z) : result float :=
  (similarity <- unrounded_similarity n ;;
   Ok (round1 similarity))%res.

(** [calculate_similarity(target, player)]: the sum of the three squared
    channel differences is an exact [int]; [math.sqrt] converts it to a
    float; the rest is float arithmetic, rounded to one decimal at the
    end. *)
Definition calculate_similarity (target player : color) : result float :=
  similarity_of_squared_distance (squared_distance target player).

(** Float comparisons as propositions. *)
Definition fle (x y : float) : Prop := (x <=? y)%float = true.
Definition flt (x y : float) : Prop := (x <? y)%float = true.

(** The double written [18.4] in Python, and the one written [18.3]. *)
Definition f18_4 : float := Eval vm_compute in nearest_float 184 10.
Definition f18_3 : float := Eval vm_compute in nearest_float 183 10.

(** The largest squared distance whose conversion to a float succeeds is
    one below this bound: from here on the nearest double would be
    [2^1024]. *)
Definition float_conversion_bound : Z := 2 ^ 1024 - 2 ^ 970.

(** [math.sqrt(255**2 * 3)], the divisor, as a double. *)
Definition max_distance_value : float :=
  Eval vm_compute in PrimFloat.sqrt 195075.

(** [100.0] as sign, mantissa and exponent. *)
Definition sf_hundred : spec_float := Eval vm_compute in Prim2SF 100.

(** [check_range fuel n P]: [P] holds at [n], [n + 1], ..., [fuel] values
    in all. *)
Fixpoint check_range (fuel : nat) (n : Z) (P : Z -> bool) : bool :=
  match fuel with
  | O => true
  | S fuel' => P n && check_range fuel' (n + 1) P
  end.

(** A float was returned and lies between [0.0] and [100.0]. *)
Definition score_in_range (r : result float) : bool :=
  match r with
  | Ok s => (0 <=? s)%float && (s <=? 100)%float
  | Raise _ => false
  end.

(** A spec-level float that is not below zero: a zero, NaN, or positive. *)
Definition sf_not_negative (x : spec_float) : Prop :=
  match x with
  | S754_infinity s | S754_finite s _ _ => s = false
  | S754_zero _ | S754_nan => True
  end.

(** ** The session state *)

(** [st.session_state] with the four keys the program uses.  [None] is a
    key that has not been set yet; reading it as an attribute raises
    [AttributeError]. *)
Record session_state : Set := mkSession {
  target_color : option color;
  score_history : option (list float);
  submitted : option bool;
  current_score : option value
}.

Definition empty_session : session_state :=
  mkSession None None None None.

(** Every key is present, as after [init_session_state]. *)
Definition initialised (s : session_state) : Prop :=
  target_color s <> None /\ score_history s <> None
  /\ submitted s <> None /\ current_score s <> None.

Section Game.

(** The process-wide random source: [randint lo hi] draws an integer
    and advances the generator. *)
Variable rng : Type.
Variable randint : Z -> Z -> rng -> Z * rng.

(** What a call can see and change. *)
Record world : Type := mkWorld {
  session : session_state;
  random : rng
}.

(** A call: it changes the world and returns a value or raises; what it
    changed before raising stays changed. *)
Definition action (A : Type) : Type := world -> result A * world.

Definition ret {A : Type} (a : A) : action A := fun w => (Ok a, w).

Definition abind {A B : Type} (m : action A) (k : A -> action B) : action B :=
  fun w =>
    match m w with
    | (Ok a, w') => k a w'
    | (Raise e, w') => (Raise e, w')
    end.

Definition lift {A : Type} (r : result A) : action A := fun w => (r, w).

Definition with_session (f : session_state -> session_state) : action unit :=
  fun w => (Ok tt, mkWorld (f (session w)) (random w)).

(** Reading [st.session_state.<key>]. *)
Definition read {A : Type} (key : session_state -> option A) : action A :=
  fun w =>
    match key (session w) with
    | Some a => (Ok a, w)
    | None => (Raise AttributeError, w)
    end.

(** Assigning [st.session_state.<key> = v]. *)
Definition set_target_color (c : color) : action unit :=
  with_session (fun s =>
    mkSession (Some c) (score_history s) (submitted s) (current_score s)).

Definition set_score_history (h : list float) : action unit :=
  with_session (fun s =>
    mkSession (target_color s) (Some h) (submitted s) (current_score s)).

Definition set_submitted (b : bool) : action unit :=
  with_session (fun s =>
    mkSession (target_color s) (score_history s) (Some b) (current_score s)).

Definition set_current_score (v : value) : action unit :=
  with_session (fun s =>
    mkSession (target_color s) (score_history s) (submitted s) (Some v)).

(** [random.randint(lo, hi)]. *)
Definition draw (lo hi : Z) : action Z :=
  fun w =>
    let '(v, g) := randint lo hi (random w) in
    (Ok v, mkWorld (session w) g).

Notation "x <- m ;; k" := (abind m (fun x => k))
  (at level 61, m at next level, right associativity).
Notation "m ;;; k" := (abind m (fun _ => k))
  (at level 61, right associativity).

Definition generate_random_color : action color :=
  r <- draw 0 255 ;;
  g <- draw 0 255 ;;
  b <- draw 0 255 ;;
  ret (r, g, b).

(** [if key not in st.session_state: st.session_state.key = ...]. *)
Definition init_session_state : action value :=
  (fun w =>
     match target_color (session w) with
     | None => (c <- generate_random_color ;; set_target_color c) w
     | Some _ => ret tt w
     end) ;;;
  (fun w =>
     match score_history (session w) with
     | None => set_score_history [] w
     | Some _ => ret tt w
     end) ;;;
  (fun w =>
     match submitted (session w) with
     | None => set_submitted false w
     | Some _ => ret tt w
     end) ;;;
  (fun w =>
     match current_score (session w) with
     | None => set_current_score PyNone w
     | Some _ => ret tt w
     end) ;;;
  ret PyNone.

Definition reset_game : action value :=
  c <- generate_random_color ;;
  set_target_color c ;;;
  set_submitted false ;;;
  set_current_score PyNone ;;;
  ret PyNone.

Definition submit_answer (player_color : color) : action value :=
  target <- read target_color ;;
  score <- lift (calculate_similarity target player_color) ;;
  set_current_score (PyFloat score) ;;;
  set_submitted true ;;;
  (h <- read score_history ;;
   set_score_history (list_insert 0 score h)) ;;;
  h <- read score_history ;;
  (if 5 <? Z.of_nat (length h)
   then (h' <- read score_history ;;
         popped <- lift (list_pop h') ;;
         set_score_history (snd popped))
   else ret tt) ;;;
  ret PyNone.

(** [submit_answer] called once for each guess, in order; the run stops
    at the first call that raises. *)
Fixpoint submit_all (guesses : list color) : action value :=
  match guesses with
  | [] => ret PyNone
  | g :: rest => submit_answer g ;;; submit_all rest
  end.

(** The scores of a list of guesses against one target. *)
Fixpoint scores_of (target : color) (guesses : list color) : result (list float) :=
  match guesses with
  | [] => Ok []
  | g :: rest =>
      (s <- calculate_similarity target g ;;
       ss <- scores_of target rest ;;
       Ok (s :: ss))%res
  end.

(** What the two statements on the history do to it: insert at the
    front, then drop the last entry when more than five are held. *)
Definition push_score (score : float) (h : list float) : list float :=
  let h1 := list_insert 0 score h in
  if 5 <? Z.of_nat (length h1) then removelast h1 else h1.

End Game.

Arguments mkWorld {rng} session random.
Arguments session {rng} w.
Arguments random {rng} w.
Arguments ret {rng A} a w.
Arguments abind {rng A B} m k w.
Arguments lift {rng A} r w.
Arguments read {rng A} key w.
Arguments submit_answer {rng} player_color w.
Arguments submit_all {rng} guesses w.
Arguments draw {rng} randint lo hi w.
Arguments generate_random_color {rng} randint w.
Arguments init_session_state {rng} randint w.
Arguments reset_game {rng} randint w.

(** A session at the start of a round, for running the program: target
    [(10, 20, 30)], no score yet, empty history. *)
Definition fresh_world : world Z :=
  mkWorld (mkSession (Some (10, 20, 30)) (Some []) (Some false) (Some PyNone)) 0.

(** Six guesses against the target [(0, 0, 0)] whose scores are 50, 60,
    70, 80, 90 and 100. *)
Definition six_guesses : list color :=
  [(220, 15, 12); (176, 15, 5); (132, 10, 0); (88, 6, 0); (44, 0, 0); (0, 0, 0)].

Definition black_world : world Z :=
  mkWorld (mkSession (Some (0, 0, 0)) (Some []) (Some false) (Some PyNone)) 0.

(** A small generator for running the program on concrete inputs: a
    linear congruential sequence, reduced to the requested range. *)
Definition lcg_randint (lo hi : Z) (g : Z) : Z * Z :=
  let g' := (g * 1103515245 + 12345) mod 2147483648 in
  (lo + g' mod (hi - lo + 1), g').

(** ** The rest of the program *)

(** A drawn value lies in the range it was asked for; this is what
    [random.randint] promises. *)
Definition randint_in_range {rng : Type}
           (randint : Z -> Z -> rng -> Z * rng) : Prop :=
  forall lo hi g, lo <= hi -> lo <= fst (randint lo hi g) <= hi.

(** A score as the program produces them. *)
Definition score_ok (s : float) : Prop := fle 0 s /\ fle s 100.

(** What holds of the session between two calls once it has been
    initialised: a valid target, at most five scores in the history, and
    the submitted flag set exactly when [current_score] holds a score,
    which is then the newest entry of the history. *)
Definition well_formed (s : session_state) : Prop :=
  (exists t, target_color s = Some t /\ valid_color t)
  /\ (exists h, score_history s = Some h
               /\ (length h <= 5)%nat
               /\ Forall score_ok h
               /\ forall x, current_score s = Some (PyFloat x) ->
                            nth_error h 0 = Some x)
  /\ ((submitted s = Some false /\ current_score s = Some PyNone)
      \/ exists x, submitted s = Some true
                   /\ current_score s = Some (PyFloat x)).

(** The calls [main] makes on the session. *)
Inductive call : Set :=
| Init
| NewGame
| Submit (player_color : color).

Definition valid_call (c : call) : Prop :=
  match c with
  | Submit g => valid_color g
  | Init | NewGame => True
  end.

Section Calls.

Context {rng : Type}.
Variable randint : Z -> Z -> rng -> Z * rng.

Definition run_call (c : call) : action rng value :=
  match c with
  | Init => init_session_state randint
  | NewGame => reset_game randint
  | Submit g => submit_answer g
  end.

(** The calls one after the other; the run stops at the first that
    raises. *)
Fixpoint run_calls (cs : list call) : action rng value :=
  match cs with
  | [] => fun w => (Ok PyNone, w)
  | c :: rest => abind (run_call c) (fun _ => run_calls rest)
  end.

(** The scores computed along a run of calls, in the order of the
    submissions: each [Submit] is scored against the target the session
    holds when it is made. *)
Fixpoint scores_of_calls (cs : list call) (w : world rng) : list float :=
  match cs with
  | [] => []
  | c :: rest =>
      let later := scores_of_calls rest (snd (run_call c w)) in
      match c with
      | Submit player_color =>
          match target_color (session w) with
          | Some target =>
              match calculate_similarity target player_color with
              | Ok score => score :: later
              | Raise _ => later
              end
          | None => later
          end
      | Init | NewGame => later
      end
  end.

End Calls.

(** How many of the calls are submissions. *)
Fixpoint submit_count (cs : list call) : nat :=
  match cs with
  | [] => O
  | Submit _ :: rest => S (submit_count rest)
  | _ :: rest => submit_count rest
  end.

(** A session played over three rounds: two submissions, a new game, one
    submission, a new game and a re-initialisation, then four more. *)
Definition three_rounds : list call :=
  [Submit (220, 15, 12); Submit (0, 0, 0); NewGame; Submit (57, 126, 223);
   NewGame; Init; Submit (1, 2, 3); Submit (200, 100, 50);
   Submit (255, 255, 255); Submit (0, 0, 0)].

(** The result display of [main]: which of [st.success], [st.info],
    [st.warning], [st.error] is called, and with which score; [None] when
    nothing is displayed. *)
Inductive banner : Set :=
| Success
| Info
| Warning
| Error.

Definition score_banner (score : float) : banner :=
  if (95 <=? score)%float then Success
  else if (80 <=? score)%float then Info
  else if (60 <=? score)%float then Warning
  else Error.


(** The bands in increasing order of praise. *)
Definition banner_rank (b : banner) : Z :=
  match b with
  | Error => 0
  | Warning => 1
  | Info => 2
  | Success => 3
  end.

(** ** The colour code *)

Module Hex.
Import Ascii String.
Local Open Scope string_scope.
Local Open Scope Z_scope.

(** One hexadecimal digit, in lower case as the [x] format writes it. *)
Definition hex_digit (d : Z) : ascii :=
  if d <? 10 then ascii_of_N (Z.to_N (48 + d))
  else ascii_of_N (Z.to_N (87 + d)).

(** The digits of [n], most significant first, put in front of [acc]. *)
Fixpoint hex_digits (fuel : nat) (n : Z) (acc : string) : string :=
  match fuel with
  | O => acc
  | S fuel' =>
      let acc' := String (hex_digit (n mod 16)) acc in
      if n / 16 =? 0 then acc' else hex_digits fuel' (n / 16) acc'
  end.

(** [format(n, 'x')] for [0 <= n]. *)
Definition to_hex (n : Z) : string :=
  hex_digits (S (Z.to_nat (Z.log2 n))) n "".

Fixpoint zeros (k : nat) : string :=
  match k with
  | O => ""
  | S k' => String "0" (zeros k')
  end.

(** [f"{n:02x}"]: the sign, if any, then zeros up to a width of two, then
    the hexadecimal digits of the magnitude. *)
Definition format_02x (n : Z) : string :=
  let sign := if n <? 0 then "-" else "" in
  let digits := to_hex (Z.abs n) in
  sign ++ zeros (2 - length sign - length digits) ++ digits.

Definition rgb_to_hex (r g b : Z) : string :=
  "#" ++ format_02x r ++ format_02x g ++ format_02x b.

(** Reading a code back, to state what [rgb_to_hex] keeps of its
    arguments: the value of a digit, of a run of digits, and of a code
    of the form [#rrggbb]. *)
Definition digit_value (c : ascii) : option Z :=
  let n := Z.of_N (N_of_ascii c) in
  if (48 <=? n) && (n <=? 57) then Some (n - 48)
  else if (97 <=? n) && (n <=? 102) then Some (n - 87)
  else None.

Fixpoint read_hex (v : Z) (s : string) : option Z :=
  match s with
  | EmptyString => Some v
  | String c rest =>
      match digit_value c with
      | Some d => read_hex (16 * v + d) rest
      | None => None
      end
  end.

Definition read_color (s : string) : option color :=
  match s with
  | String "#" (String r1 (String r2 (String g1 (String g2
      (String b1 (String b2 EmptyString)))))) =>
      match read_hex 0 (String r1 (String r2 EmptyString)),
            read_hex 0 (String g1 (String g2 EmptyString)),
            read_hex 0 (String b1 (String b2 EmptyString)) with
      | Some r, Some g, Some b => Some (r, g, b)
      | _, _, _ => None
      end
  | _ => None
  end.

(** A channel in [0, 255] is written with exactly two digits that read
    back as the channel. *)
Definition two_digits_ok (v : Z) : bool :=
  match format_02x v with
  | String a (String b EmptyString) =>
      match read_hex 0 (String a (String b EmptyString)) with
      | Some x => x =? v
      | None => false
      end
  | _ => false
  end.

Definition digit_ok (d : Z) : bool :=
  match digit_value (hex_digit d) with
  | Some v => v =? d
  | None => false
  end.

End Hex.

(** ** Comparing scores *)

(** The number of tenths that [round1] rounds a positive float below
    [2^52] to; zero for the other floats. *)
Definition tenths (x : float) : Z :=
  match Prim2SF x with
  | S754_finite false m e =>
      if 0 <=? e then 10 * Zpos m * 2 ^ e
      else div_half_even (10 * Zpos m) (2 ^ (- e))
  | _ => 0
  end.

(** [check_decreasing fuel n prev]: the value handed to [round] for the
    squared distances [n + 1], ..., [n + fuel] exists, is not below zero
    and never exceeds the one before it, [prev] being the value at [n]. *)
Fixpoint check_decreasing (fuel : nat) (n : Z) (prev : float) : bool :=
  match fuel with
  | O => true
  | S fuel' =>
      match unrounded_similarity (n + 1) with
      | Ok x =>
          (x <=? prev)%float && (0 <=? x)%float
          && check_decreasing fuel' (n + 1) x
      | Raise _ => false
      end
  end.

(** A spec-level float that is a zero, or positive and finite. *)
Definition sf_small (x : spec_float) : Prop :=
  match x with
  | S754_zero _ | S754_finite false _ _ => True
  | _ => False
  end.

(** The double written [99.8]. *)
Definition f99_8 : float := Eval vm_compute in nearest_float 998 10.

(** ** Facts about the score *)

Lemma squared_distance_sym (a b : color) :
  squared_distance a b = squared_distance b a.
Proof.
  destruct a as [[a0 a1] a2], b as [[b0 b1] b2]; unfold squared_distance; ring.
Qed.

Lemma squared_distance_refl (c : color) : squared_distance c c = 0.
Proof.
  destruct c as [[c0 c1] c2]; unfold squared_distance.
  rewrite !Z.sub_diag. reflexivity.
Qed.

Lemma squared_distance_nonneg (a b : color) : 0 <= squared_distance a b.
Proof.
  destruct a as [[a0 a1] a2], b as [[b0 b1] b2]; unfold squared_distance.
  nia.
Qed.

Lemma squared_distance_valid (a b : color) :
  valid_color a -> valid_color b -> 0 <= squared_distance a b <= 195075.
Proof.
  destruct a as [[a0 a1] a2], b as [[b0 b1] b2].
  unfold valid_color, valid_channel, squared_distance.
  intros (Ha0 & Ha1 & Ha2) (Hb0 & Hb1 & Hb2).
  assert (H0 : 0 <= (a0 - b0) ^ 2 <= 65025) by nia.
  assert (H1 : 0 <= (a1 - b1) ^ 2 <= 65025) by nia.
  assert (H2 : 0 <= (a2 - b2) ^ 2 <= 65025) by nia.
  lia.
Qed.

(** The conversion agrees with the machine's own on integers it can
    hold, ties included, and keeps the sign. *)
Lemma int_to_float_examples :
  int_to_float 195075 = Ok (of_uint63 (Uint63.of_Z 195075))
  /\ int_to_float (2 ^ 53 + 1) = Ok (of_uint63 (Uint63.of_Z 9007199254740993))
  /\ int_to_float (2 ^ 53 + 3) = Ok (of_uint63 (Uint63.of_Z 9007199254740995))
  /\ int_to_float (2 ^ 54 + 6) = Ok (of_uint63 (Uint63.of_Z 18014398509481990))
  /\ int_to_float (- 5) = Ok (- of_uint63 (Uint63.of_Z 5))%float
  /\ int_to_float (float_conversion_bound - 1)
     = Ok (Z.ldexp (of_uint63 (Uint63.of_Z 9007199254740991)) 971).
Proof. repeat split; vm_compute; reflexivity. Qed.

(** [round] to one decimal on exact binary fractions: ties go to the even
    digit, and the sign of a negative zero is kept. *)
Lemma round1_examples :
  round1 0.25 = nearest_float 2 10
  /\ round1 0.75 = nearest_float 8 10
  /\ round1 0.3125 = nearest_float 3 10
  /\ round1 (-0.03125) = (- 0)%float
  /\ round1 99.96875 = 100%float
  /\ round1 infinity = infinity.
Proof. repeat split; vm_compute; reflexivity. Qed.

(** C5. For every valid colour [c] the score of [c] against itself is
    [100.0]; in particular for [(100, 150, 200)]. *)
Theorem identical_colors_score_100 :
  (forall c : color, valid_color c -> calculate_similarity c c = Ok 100%float)
  /\ calculate_similarity (100, 150, 200) (100, 150, 200) = Ok 100%float.
Proof.
  split.
  - intros c _. unfold calculate_similarity.
    rewrite squared_distance_refl. vm_compute. reflexivity.
  - vm_compute. reflexivity.
Qed.

Lemma identical_colors_score_100_witness :
  valid_color (100, 150, 200)
  /\ calculate_similarity (100, 150, 200) (100, 150, 200) = Ok 100%float.
Proof.
  assert (V : valid_color (100, 150, 200))
    by (unfold valid_color, valid_channel; lia).
  split; [exact V | exact (proj1 identical_colors_score_100 (100, 150, 200) V)].
Defined.

(** C7. Black against white scores exactly [0.0]. *)
Theorem black_white_score_0 :
  calculate_similarity (0, 0, 0) (255, 255, 255) = Ok 0%float.
Proof. vm_compute. reflexivity. Qed.

(** C9, as the code has it. Pure red against pure green scores [18.4]:
    the similarity before rounding is about 18.3503. *)
Theorem red_green_score_18_4 :
  calculate_similarity (255, 0, 0) (0, 255, 0) = Ok f18_4.
Proof. vm_compute. reflexivity. Qed.

(** C9, counterexample. The score of pure red against pure green is not
    [18.3]. *)
Lemma red_green_score_not_18_3 :
  calculate_similarity (255, 0, 0) (0, 255, 0) <> Ok f18_3.
Proof.
  intros H.
  apply (f_equal (fun r => match r with
                           | Ok s => (s <=? f18_3)%float
                           | Raise _ => false
                           end)) in H.
  vm_compute in H. discriminate H.
Qed.

(** ** Facts about the history list *)

Lemma list_pop_cons {A : Type} (x : A) (l : list A) :
  exists y, list_pop (x :: l) = Ok (y, removelast (x :: l)).
Proof.
  unfold list_pop. destruct (rev (x :: l)) as [|y r] eqn:E.
  - apply (f_equal (@length A)) in E. rewrite length_rev in E. discriminate E.
  - exists y. reflexivity.
Qed.

Lemma push_score_firstn (s : float) (h : list float) :
  (length h <= 5)%nat -> push_score s h = firstn 5 (s :: h).
Proof.
  intros Hlen. unfold push_score, list_insert.
  change (firstn 0 h ++ s :: skipn 0 h) with (s :: h).
  destruct (5 <? Z.of_nat (length (s :: h))) eqn:E.
  - apply Z.ltb_lt in E. cbn [length] in E.
    assert (L : length h = 5%nat) by lia.
    rewrite removelast_firstn_len. cbn [length]. rewrite L. reflexivity.
  - apply Z.ltb_ge in E. cbn [length] in E.
    symmetry. apply firstn_all2. cbn [length]. lia.
Qed.

Lemma push_score_length (s : float) (h : list float) :
  (length h < 5)%nat -> length (push_score s h) = S (length h).
Proof.
  intros Hlen. rewrite push_score_firstn by lia.
  rewrite length_firstn. cbn [length]. lia.
Qed.

Lemma firstn_app_firstn {A : Type} (n : nat) (a b : list A) :
  firstn n (a ++ firstn n b) = firstn n (a ++ b).
Proof.
  rewrite !firstn_app, firstn_firstn.
  replace (Nat.min (n - length a) n) with (n - length a)%nat by lia.
  reflexivity.
Qed.

(** ** Facts about the session functions *)

Section GameFacts.

Context {rng : Type}.
Variable randint : Z -> Z -> rng -> Z * rng.

(** One call of [submit_answer] on a session that holds a target and a
    history, when the score can be computed. *)
Lemma submit_answer_step (w : world rng) (t g : color) (h : list float)
      (s : float) :
  target_color (session w) = Some t ->
  score_history (session w) = Some h ->
  calculate_similarity t g = Ok s ->
  submit_answer g w
  = (Ok PyNone,
     mkWorld (mkSession (Some t) (Some (push_score s h)) (Some true)
                        (Some (PyFloat s)))
             (random w)).
Proof.
  intros Ht Hh Hs.
  unfold submit_answer, abind, read, lift, set_current_score, set_submitted,
    set_score_history, with_session, ret.
  cbn [session random target_color score_history submitted current_score].
  rewrite Ht, Hs.
  cbn [session random target_color score_history submitted current_score].
  rewrite Hh.
  cbn [session random target_color score_history submitted current_score].
  unfold push_score.
  change (list_insert 0 s h) with (s :: h).
  destruct (5 <? Z.of_nat (length (s :: h))) eqn:E;
    cbn [session random target_color score_history submitted current_score].
  - destruct (list_pop_cons s h) as [y Hy]. rewrite Hy.
    cbn [snd session random target_color score_history submitted
         current_score].
    rewrite Ht. reflexivity.
  - rewrite Ht. reflexivity.
Qed.

(** [submit_answer] called for each guess in turn: the history ends up
    holding the newest five scores, newest first. *)
Lemma submit_all_history (t : color) (guesses : list color) :
  forall (w : world rng) (h scores : list float),
    target_color (session w) = Some t ->
    score_history (session w) = Some h ->
    (length h <= 5)%nat ->
    scores_of t guesses = Ok scores ->
    exists w',
      submit_all guesses w = (Ok PyNone, w')
      /\ target_color (session w') = Some t
      /\ score_history (session w') = Some (firstn 5 (rev scores ++ h))
      /\ (forall earlier s, scores = earlier ++ [s] ->
          current_score (session w') = Some (PyFloat s)).
Proof.
  induction guesses as [|g rest IH]; intros w h scores Ht Hh Hlen Hsc.
  - cbn in Hsc. injection Hsc as <-. exists w. cbn [rev app].
    repeat split; try assumption.
    + rewrite firstn_all2 by exact Hlen. exact Hh.
    + intros earlier s E. destruct earlier; discriminate E.
  - cbn [scores_of] in Hsc. unfold bind in Hsc.
    destruct (calculate_similarity t g) as [s|] eqn:Hs; [|discriminate Hsc].
    destruct (scores_of t rest) as [ss|] eqn:Hss; [|discriminate Hsc].
    injection Hsc as <-.
    pose proof (submit_answer_step w t g h s Ht Hh Hs) as Hstep.
    set (w1 := mkWorld (mkSession (Some t) (Some (push_score s h))
                                  (Some true) (Some (PyFloat s)))
                       (random w)) in *.
    assert (Hlen1 : (length (push_score s h) <= 5)%nat).
    { rewrite push_score_firstn by exact Hlen. rewrite length_firstn. lia. }
    destruct (IH w1 (push_score s h) ss eq_refl eq_refl Hlen1 eq_refl)
      as (w' & Hrun & Ht' & Hh' & Hcur).
    exists w'. cbn [submit_all]. unfold abind at 1. rewrite Hstep.
    repeat split; try assumption.
    + rewrite Hh'. f_equal. rewrite push_score_firstn by exact Hlen.
      rewrite firstn_app_firstn. cbn [rev]. rewrite <- app_assoc.
      reflexivity.
    + intros earlier s' E. destruct ss as [|s2 ss'].
      * destruct earlier as [|e1 [|e2 earlier]]; try discriminate E.
        injection E as <-. destruct rest as [|g2 rest'].
        -- cbn in Hrun. injection Hrun as <-. reflexivity.
        -- cbn [scores_of] in Hss. unfold bind in Hss.
           destruct (calculate_similarity t g2); [|discriminate Hss].
           destruct (scores_of t rest'); discriminate Hss.
      * destruct earlier as [|e1 earlier]; [discriminate E|].
        injection E as _ E. exact (Hcur earlier s' E).
Qed.

End GameFacts.

(** ** The score of two valid colours *)

(** *** The sign of a converted integer *)

Lemma binary_round_aux_not_negative (mx ex : Z) (lx : location) :
  sf_not_negative (binary_round_aux prec emax false mx ex lx).
Proof.
  unfold binary_round_aux.
  destruct (shr_fexp prec emax mx ex lx) as [r1 e1].
  destruct (shr_fexp prec emax _ e1 loc_Exact) as [r2 e2].
  destruct (shr_m r2) as [|m|m].
  - exact Logic.I.
  - destruct (e2 <=? emax - prec); reflexivity.
  - exact Logic.I.
Qed.

Lemma binary_round_not_negative (m : positive) (e : Z) :
  sf_not_negative (binary_round prec emax false m e).
Proof.
  unfold binary_round.
  destruct (shl_align m e _) as [mz ez].
  apply binary_round_aux_not_negative.
Qed.

Lemma binary_normalize_not_negative (z e : Z) :
  0 <= z -> sf_not_negative (binary_normalize prec emax z e false).
Proof.
  intros Hz. destruct z as [|p|p]; cbn [binary_normalize].
  - exact Logic.I.
  - apply binary_round_not_negative.
  - lia.
Qed.

Lemma SFldexp_not_negative (f : spec_float) (e : Z) :
  sf_not_negative f -> sf_not_negative (SFldexp prec emax f e).
Proof.
  destruct f as [s|s| |s m ex]; cbn [SFldexp]; try (intros H; exact H).
  intros H. cbn in H. subst s. apply binary_round_not_negative.
Qed.

Lemma not_negative_ltb_zero (x : float) :
  sf_not_negative (Prim2SF x) -> (x <? 0)%float = false.
Proof.
  intros H. rewrite ltb_spec.
  change (Prim2SF 0) with (S754_zero false).
  destruct (Prim2SF x) as [s|s| |s m e]; cbn in H |- *;
    try reflexivity; subst s; reflexivity.
Qed.

Lemma int_to_float_not_negative (n : Z) (x : float) :
  0 <= n -> int_to_float n = Ok x -> (x <? 0)%float = false.
Proof.
  intros Hn. unfold int_to_float.
  destruct (1024 <=? _); [discriminate|].
  destruct (n <? 0) eqn:E; [apply Z.ltb_lt in E; lia|].
  intros H. injection H as <-.
  apply not_negative_ltb_zero.
  rewrite Z_ldexp_spec. apply SFldexp_not_negative.
  rewrite of_uint63_spec. apply binary_normalize_not_negative.
  apply Uint63.to_Z_bounded.
Qed.

(** Rounding a quotient to the nearest integer. *)

Lemma div_half_even_bounds (num den : Z) :
  0 < den -> num / den <= div_half_even num den <= num / den + 1.
Proof.
  intros Hden. unfold div_half_even.
  destruct (2 * (num mod den) ?= den); [destruct (Z.even (num / den))| |]; lia.
Qed.

Lemma div_half_even_one (a : Z) : div_half_even a 1 = a.
Proof.
  unfold div_half_even. rewrite Z.mod_1_r, Z.div_1_r. reflexivity.
Qed.

Lemma div_half_even_below (num den b : Z) :
  0 < den -> 2 * num < (2 * b + 1) * den -> div_half_even num den <= b.
Proof.
  intros Hden H.
  pose proof (Z.div_mod num den ltac:(lia)) as E.
  pose proof (Z.mod_pos_bound num den Hden) as Hr.
  unfold div_half_even.
  assert (Hq : num / den <= b).
  { assert (X : 2 * (num / den) * den < (2 * b + 1) * den) by lia.
    apply Z.mul_lt_mono_pos_r in X; lia. }
  destruct (Z.eq_dec (num / den) b) as [Eq|Ne].
  - assert (Hlt : 2 * (num mod den) < den).
    { rewrite Eq in E. lia. }
    apply Z.compare_lt_iff in Hlt. rewrite Hlt. lia.
  - destruct (2 * (num mod den) ?= den);
      [destruct (Z.even (num / den))| |]; lia.
Qed.

Lemma div_half_even_above (num den b : Z) :
  0 < den -> Z.even b = true -> (2 * b - 1) * den <= 2 * num ->
  b <= div_half_even num den.
Proof.
  intros Hden Hb H.
  pose proof (Z.div_mod num den ltac:(lia)) as E.
  pose proof (Z.mod_pos_bound num den Hden) as Hr.
  pose proof (div_half_even_bounds num den Hden) as Hbd.
  destruct (Z_le_gt_dec b (num / den)) as [Hge|Hlt]; [lia|].
  assert (Hq : num / den = b - 1).
  { assert (X : (2 * b - 1) * den < (2 * (num / den) + 2) * den) by lia.
    apply Z.mul_lt_mono_pos_r in X; lia. }
  assert (H2r : den <= 2 * (num mod den)).
  { rewrite Hq in E. lia. }
  unfold div_half_even.
  destruct (2 * (num mod den) ?= den) eqn:C.
  - assert (Ho : Z.even (num / den) = false).
    { rewrite Hq. replace (b - 1) with (Z.pred b) by lia.
      rewrite Z.even_pred. rewrite <- Z.negb_even, Hb. reflexivity. }
    rewrite Ho. lia.
  - apply -> Z.compare_lt_iff in C. lia.
  - lia.
Qed.

Lemma shifted_quotient_bounds (a : Z) :
  53 <= Z.log2 a ->
  2 ^ 52 <= a / 2 ^ (Z.log2 a - 52) < 2 ^ 53.
Proof.
  intros HL.
  assert (Ha : 0 < a) by (destruct a; cbn in HL; lia).
  destruct (Z.log2_spec a Ha) as [Hlo Hhi].
  set (sh := Z.log2 a - 52) in *.
  assert (Hsh : 0 < 2 ^ sh) by (apply Z.pow_pos_nonneg; lia).
  assert (E1 : 2 ^ Z.log2 a = 2 ^ 52 * 2 ^ sh).
  { rewrite <- Z.pow_add_r by lia. f_equal. lia. }
  assert (E2 : 2 ^ Z.succ (Z.log2 a) = 2 ^ 53 * 2 ^ sh).
  { rewrite <- Z.pow_add_r by lia. f_equal. lia. }
  split.
  - apply Z.div_le_lower_bound; lia.
  - apply Z.div_lt_upper_bound; lia.
Qed.

Lemma int_to_float_ok (n : Z) :
  Z.abs n < float_conversion_bound -> exists x, int_to_float n = Ok x.
Proof.
  intros Hb. unfold int_to_float.
  set (a := Z.abs n) in *.
  assert (Ha : 0 <= a) by apply Z.abs_nonneg.
  assert (HL : Z.log2 a <= 1023).
  { destruct (Z.eq_dec a 0) as [->|Hne]; [cbn; lia|].
    assert (Z.log2 a < 1024); [|lia].
    apply Z.log2_lt_pow2; [lia|].
    unfold float_conversion_bound in Hb.
    assert (0 < 2 ^ 970) by (apply Z.pow_pos_nonneg; lia). lia. }
  assert (Hno : (1024 <=? Z.log2 (div_half_even a (2 ^ Z.max 0 (Z.log2 a + 1 - 53)))
                          + Z.max 0 (Z.log2 a + 1 - 53)) = false).
  { apply Z.leb_gt.
    destruct (Z_lt_le_dec (Z.log2 a) 53) as [Hs|Hl].
    - replace (Z.max 0 (Z.log2 a + 1 - 53)) with 0 by lia.
      change (2 ^ 0) with 1. rewrite div_half_even_one. lia.
    - replace (Z.max 0 (Z.log2 a + 1 - 53)) with (Z.log2 a - 52) by lia.
      pose proof (shifted_quotient_bounds a Hl) as Hq.
      assert (Hden : 0 < 2 ^ (Z.log2 a - 52)) by (apply Z.pow_pos_nonneg; lia).
      pose proof (div_half_even_bounds a _ Hden) as Hm.
      set (m := div_half_even a (2 ^ (Z.log2 a - 52))) in *.
      assert (Hm53 : Z.log2 m <= 53).
      { apply Z.le_trans with (Z.log2 (2 ^ 53)).
        - apply Z.log2_le_mono. lia.
        - rewrite Z.log2_pow2; lia. }
      destruct (Z.eq_dec (Z.log2 a) 1023) as [E|NE].
      + assert (Hmlt : m <= 2 ^ 53 - 1).
        { subst m. apply div_half_even_below; [exact Hden|].
          rewrite E. unfold float_conversion_bound in Hb.
          change (1023 - 52) with 971.
          remember (2 ^ 970) as p eqn:Ep.
          assert (Ep2 : 2 ^ 971 = 2 * p) by (subst p; reflexivity).
          assert (Ep3 : 2 ^ 1024 = 2 ^ 54 * p) by (subst p; reflexivity).
          rewrite Ep2. rewrite Ep3 in Hb. lia. }
        assert (Z.log2 m < 53); [|lia].
        apply Z.log2_lt_pow2; lia.
      + lia. }
  rewrite Hno. eexists. reflexivity.
Qed.

Lemma int_to_float_overflow (n : Z) :
  float_conversion_bound <= Z.abs n -> int_to_float n = Raise OverflowError.
Proof.
  intros Hb. unfold int_to_float.
  set (a := Z.abs n) in *.
  unfold float_conversion_bound in Hb.
  remember (2 ^ 970) as p eqn:Ep.
  assert (Hp : 0 < p) by (subst p; reflexivity).
  assert (Ep1 : 2 ^ 971 = 2 * p) by (subst p; reflexivity).
  assert (Ep2 : 2 ^ 1023 = 2 ^ 53 * p) by (subst p; reflexivity).
  assert (Ep3 : 2 ^ 1024 = 2 ^ 54 * p) by (subst p; reflexivity).
  assert (HL : 1023 <= Z.log2 a).
  { apply Z.log2_le_pow2; lia. }
  assert (Hl : 53 <= Z.log2 a) by lia.
  replace (Z.max 0 (Z.log2 a + 1 - 53)) with (Z.log2 a - 52) by lia.
  pose proof (shifted_quotient_bounds a Hl) as Hq.
  assert (Hden : 0 < 2 ^ (Z.log2 a - 52)) by (apply Z.pow_pos_nonneg; lia).
  pose proof (div_half_even_bounds a _ Hden) as Hm.
  set (m := div_half_even a (2 ^ (Z.log2 a - 52))) in *.
  assert (Hyes : (1024 <=? Z.log2 m + (Z.log2 a - 52)) = true); [|now rewrite Hyes].
  apply Z.leb_le.
  assert (Hm52 : 52 <= Z.log2 m) by (apply Z.log2_le_pow2; lia).
  destruct (Z.eq_dec (Z.log2 a) 1023) as [E|NE]; [|lia].
  assert (Hm53 : 53 <= Z.log2 m); [|lia].
  apply Z.log2_le_pow2; [lia|].
  subst m. apply div_half_even_above; [exact Hden|reflexivity|].
  rewrite E. change (1023 - 52) with 971. rewrite Ep1. lia.
Qed.

(** The constant divisor and the two conversions of [100]. *)

Lemma max_distance_computed :
  math_sqrt_int (255 ^ 2 * 3) = Ok max_distance_value.
Proof. vm_compute. reflexivity. Qed.

Lemma hundred_converted : int_to_float 100 = Ok 100%float.
Proof. vm_compute. reflexivity. Qed.

Lemma unrounded_similarity_of_distance (n : Z) (x : float) :
  0 <= n -> int_to_float n = Ok x ->
  unrounded_similarity n
  = Ok (100 - PrimFloat.sqrt x / max_distance_value * 100)%float.
Proof.
  intros Hn Hx. unfold unrounded_similarity.
  rewrite max_distance_computed.
  unfold math_sqrt_int, math_sqrt. rewrite Hx. cbn [bind].
  rewrite (int_to_float_not_negative n x Hn Hx). cbn [bind].
  unfold float_truediv.
  change (max_distance_value =? 0)%float with false. cbn [bind].
  unfold float_mul_int, int_sub_float. rewrite hundred_converted.
  reflexivity.
Qed.

Lemma similarity_total_below_bound (n : Z) :
  0 <= n < float_conversion_bound ->
  exists s, similarity_of_squared_distance n = Ok s.
Proof.
  intros [Hn Hb].
  destruct (int_to_float_ok n) as [x Hx]; [rewrite Z.abs_eq; lia|].
  unfold similarity_of_squared_distance.
  rewrite (unrounded_similarity_of_distance n x Hn Hx).
  eexists. reflexivity.
Qed.

Lemma similarity_overflow_from_bound (n : Z) :
  float_conversion_bound <= n ->
  similarity_of_squared_distance n = Raise OverflowError.
Proof.
  intros Hb.
  assert (Hn : 0 <= n).
  { unfold float_conversion_bound in Hb.
    assert (0 < 2 ^ 1024 - 2 ^ 970) by reflexivity. lia. }
  unfold similarity_of_squared_distance, unrounded_similarity, math_sqrt_int.
  rewrite int_to_float_overflow by (rewrite Z.abs_eq; lia).
  reflexivity.
Qed.


Lemma check_range_sound (P : Z -> bool) (fuel : nat) :
  forall n, check_range fuel n P = true ->
  forall k, n <= k < n + Z.of_nat fuel -> P k = true.
Proof.
  induction fuel as [|fuel IH]; intros n H k Hk.
  - cbn in Hk. lia.
  - cbn [check_range] in H. apply andb_true_iff in H as [Hn Hrest].
    destruct (Z.eq_dec k n) as [->|Hne]; [exact Hn|].
    apply (IH (n + 1) Hrest). lia.
Qed.

Lemma digits2_pos_bound (m : positive) :
  Zpos m < 2 ^ Zpos (digits2_pos m).
Proof.
  induction m as [m IH|m IH|]; cbn [digits2_pos].
  - rewrite Pos2Z.inj_succ, Z.pow_succ_r by lia. lia.
  - rewrite Pos2Z.inj_succ, Z.pow_succ_r by lia. lia.
  - reflexivity.
Qed.

Lemma valid_mantissa_bound (s : bool) (m : positive) (e : Z) :
  valid_binary (S754_finite s m e) = true -> Zpos m < 2 ^ 53.
Proof.
  cbn [SpecFloat.valid_binary]. unfold bounded, canonical_mantissa, fexp.
  intros H. apply andb_true_iff in H as [H _]. apply Z.eqb_eq in H.
  pose proof (digits2_pos_bound m) as Hd.
  assert (Hle : Zpos (digits2_pos m) <= 53) by (unfold prec in H; lia).
  apply Z.lt_le_trans with (2 ^ Zpos (digits2_pos m)); [exact Hd|].
  apply Z.pow_le_mono_r; lia.
Qed.

Lemma tenths_in_range :
  check_range 1001 0
    (fun k => (0 <=? nearest_float k 10)%float
              && (nearest_float k 10 <=? 100)%float) = true.
Proof. vm_compute. reflexivity. Qed.

Lemma round1_in_range (x : float) :
  fle 0 x -> fle x 100 -> fle 0 (round1 x) /\ fle (round1 x) 100.
Proof.
  unfold fle. intros H0 H100.
  pose proof (Prim2SF_valid x) as Hv.
  unfold round1.
  pose proof H0 as H0'. pose proof H100 as H100'.
  rewrite leb_spec in H0', H100'.
  change (Prim2SF 0) with (S754_zero false) in H0'.
  change (Prim2SF 100) with sf_hundred in H100'.
  destruct (Prim2SF x) as [s|s| |s m e]; try (split; assumption).
  assert (Hs : s = false) by (destruct s; [discriminate H0'|reflexivity]).
  subst s.
  apply valid_mantissa_bound in Hv.
  assert (He : e < -46 \/ (e = -46 /\ Zpos m <= 7036874417766400)).
  { unfold sf_hundred, SFleb, SFcompare in H100'.
    remember 7036874417766400%positive as M eqn:EM in *.
    destruct (e ?= -46) eqn:Ce.
    - apply Z.compare_eq_iff in Ce. right. split; [exact Ce|].
      fold (Pos.compare m M) in H100'.
      destruct (Pos.compare m M) eqn:Cm.
      + apply Pos.compare_eq_iff in Cm. rewrite Cm. apply Z.le_refl.
      + apply -> Pos.compare_lt_iff in Cm.
        apply Z.lt_le_incl. exact Cm.
      + discriminate H100'.
    - left. apply -> Z.compare_lt_iff in Ce. exact Ce.
    - discriminate H100'. }
  assert (Hneg : (0 <=? e) = false) by (apply Z.leb_gt; lia).
  rewrite Hneg.
  set (k := div_half_even (10 * Z.pos m) (2 ^ (- e))).
  assert (Hden : 0 < 2 ^ (- e)) by (apply Z.pow_pos_nonneg; lia).
  assert (Hk : 0 <= k < 0 + Z.of_nat 1001).
  { pose proof (div_half_even_bounds (10 * Z.pos m) _ Hden) as Hb.
    assert (0 <= 10 * Z.pos m / 2 ^ (- e)) by (apply Z.div_pos; lia).
    assert (k <= 1000); [|fold k in Hb; lia].
    apply div_half_even_below; [exact Hden|].
    destruct He as [He|[He Hm]].
    - assert (2 ^ 47 <= 2 ^ (- e)) by (apply Z.pow_le_mono_r; lia). lia.
    - rewrite He. change (2 ^ (- -46)) with 70368744177664. lia. }
  pose proof (check_range_sound _ _ _ tenths_in_range k Hk) as Hc.
  cbv beta in Hc. apply andb_true_iff in Hc. exact Hc.
Qed.

Lemma every_valid_distance_in_range :
  check_range (Z.to_nat 195076) 0
    (fun n => score_in_range (unrounded_similarity n)) = true.
Proof. vm_cast_no_check (@eq_refl bool true). Qed.

Lemma valid_score (t g : color) :
  valid_color t -> valid_color g ->
  exists s, calculate_similarity t g = Ok s /\ fle 0 s /\ fle s 100.
Proof.
  intros Vt Vg. unfold calculate_similarity, similarity_of_squared_distance.
  pose proof (squared_distance_valid t g Vt Vg) as Hn.
  assert (Hk : 0 <= squared_distance t g < 0 + Z.of_nat (Z.to_nat 195076))
    by (rewrite Z2Nat.id; lia).
  pose proof (check_range_sound _ _ _ every_valid_distance_in_range
                (squared_distance t g) Hk) as H.
  cbv beta in H.
  destruct (unrounded_similarity (squared_distance t g)) as [x|e];
    [|discriminate H].
  cbn [score_in_range] in H. apply andb_true_iff in H as [H0 H100].
  exists (round1 x). split; [reflexivity|].
  apply round1_in_range; assumption.
Qed.

Lemma scores_of_valid (t : color) (guesses : list color) :
  valid_color t -> Forall valid_color guesses ->
  exists scores,
    scores_of t guesses = Ok scores /\ length scores = length guesses.
Proof.
  intros Vt. induction 1 as [|g rest Vg _ IH].
  - exists []. split; reflexivity.
  - destruct IH as (ss & Hss & Hlen).
    destruct (valid_score t g Vt Vg) as (s & Hs & _).
    exists (s :: ss). cbn [scores_of length]. rewrite Hs, Hss.
    split; [reflexivity | now rewrite Hlen].
Qed.

(** C6. For valid target and guess the score is returned and lies in
    [0.0, 100.0], with no clamp in the code. *)
Theorem score_between_0_and_100 (target guess : color) :
  valid_color target -> valid_color guess ->
  exists s, calculate_similarity target guess = Ok s /\ fle 0 s /\ fle s 100.
Proof. exact (valid_score target guess). Qed.

Lemma score_between_0_and_100_witness :
  exists s, calculate_similarity (12, 200, 7) (255, 0, 31) = Ok s
            /\ fle 0 s /\ fle s 100.
Proof.
  apply score_between_0_and_100; unfold valid_color, valid_channel; lia.
Defined.

(** C8. The score is symmetric in its two arguments: for valid colours
    both orders return, and return the same score. *)
Theorem score_symmetric (a b : color) :
  valid_color a -> valid_color b ->
  calculate_similarity a b = calculate_similarity b a
  /\ exists s, calculate_similarity a b = Ok s
               /\ calculate_similarity b a = Ok s.
Proof.
  intros Va Vb.
  assert (E : calculate_similarity a b = calculate_similarity b a).
  { unfold calculate_similarity.
    rewrite (squared_distance_sym a b). reflexivity. }
  split; [exact E|].
  destruct (valid_score a b Va Vb) as (s & Hs & _).
  exists s. split; [exact Hs|]. rewrite <- E. exact Hs.
Qed.

Lemma score_symmetric_witness :
  calculate_similarity (255, 0, 0) (0, 255, 0)
  = calculate_similarity (0, 255, 0) (255, 0, 0)
  /\ exists s, calculate_similarity (255, 0, 0) (0, 255, 0) = Ok s
               /\ calculate_similarity (0, 255, 0) (255, 0, 0) = Ok s.
Proof.
  apply score_symmetric; unfold valid_color, valid_channel; lia.
Defined.

(** ** The session functions *)

(** C1, counterexample. In one round, a second [submit_answer] arrives in
    the submitted state and pushes a second entry: the history grows from
    one entry to two. *)
Lemma resubmission_pushes_again :
  exists w1 w2 : world Z,
    submit_answer (10, 20, 30) fresh_world = (Ok PyNone, w1)
    /\ submitted (session w1) = Some true
    /\ score_history (session w1) = Some [100%float]
    /\ submit_answer (10, 20, 30) w1 = (Ok PyNone, w2)
    /\ target_color (session w2) = target_color (session w1)
    /\ score_history (session w2) = Some [100%float; 100%float].
Proof.
  eexists. eexists.
  split; [vm_compute; reflexivity|].
  repeat split; vm_compute; reflexivity.
Qed.

(** C1, as the code has it. Every [submit_answer], whatever the submitted
    flag holds, overwrites [current_score] with the new score and pushes
    that score onto the front of the history, dropping the last entry when
    more than five are held; while fewer than five are held each call,
    a resubmission included, makes the history one longer. *)
Theorem submit_overwrites_and_pushes {rng : Type} (w : world rng)
        (t g : color) (h : list float) (s : float) :
  target_color (session w) = Some t ->
  score_history (session w) = Some h ->
  calculate_similarity t g = Ok s ->
  exists w',
    submit_answer g w = (Ok PyNone, w')
    /\ current_score (session w') = Some (PyFloat s)
    /\ submitted (session w') = Some true
    /\ target_color (session w') = Some t
    /\ score_history (session w') = Some (push_score s h)
    /\ ((length h <= 5)%nat -> push_score s h = firstn 5 (s :: h))
    /\ ((length h < 5)%nat -> length (push_score s h) = S (length h)).
Proof.
  intros Ht Hh Hs. eexists. split.
  - apply (submit_answer_step w t g h s Ht Hh Hs).
  - cbn [session current_score submitted target_color score_history].
    repeat split.
    + apply push_score_firstn.
    + apply push_score_length.
Qed.

Lemma submit_overwrites_and_pushes_witness :
  exists w',
    submit_answer (10, 20, 30)
      (mkWorld (mkSession (Some (10, 20, 30)) (Some [100%float]) (Some true)
                          (Some (PyFloat 100))) 0) = (Ok PyNone, w')
    /\ current_score (session w') = Some (PyFloat 100)
    /\ submitted (session w') = Some true
    /\ target_color (session w') = Some (10, 20, 30)
    /\ score_history (session w') = Some (push_score 100 [100%float])
    /\ ((length [100%float] <= 5)%nat ->
        push_score 100 [100%float] = firstn 5 [100; 100]%float)
    /\ ((length [100%float] < 5)%nat ->
        length (push_score 100 [100%float]) = S (length [100%float])).
Proof.
  apply (submit_overwrites_and_pushes
           (mkWorld (mkSession (Some (10, 20, 30)) (Some [100%float])
                               (Some true) (Some (PyFloat 100))) 0)
           (10, 20, 30) (10, 20, 30) [100%float] 100%float).
  - reflexivity.
  - reflexivity.
  - vm_compute. reflexivity.
Defined.

(** C2, counterexample. [submit_answer] returns [None]; the score it
    computed, [100.0], is only stored in the session. *)
Lemma submit_returns_none_example :
  exists w' : world Z,
    submit_answer (10, 20, 30) fresh_world = (Ok PyNone, w')
    /\ current_score (session w') = Some (PyFloat 100)
    /\ PyNone <> PyFloat 100.
Proof.
  eexists. split; [vm_compute; reflexivity|].
  split; [reflexivity | discriminate].
Qed.

(** C2, as the code has it. For every session holding a valid target and
    a history, and every valid guess, [submit_answer] returns [None] and
    stores the score it computed as [current_score]. *)
Theorem submit_stores_score_returns_none {rng : Type} (w : world rng)
        (t g : color) (h : list float) :
  target_color (session w) = Some t ->
  score_history (session w) = Some h ->
  valid_color t -> valid_color g ->
  exists s w',
    calculate_similarity t g = Ok s
    /\ submit_answer g w = (Ok PyNone, w')
    /\ current_score (session w') = Some (PyFloat s).
Proof.
  intros Ht Hh Vt Vg.
  destruct (valid_score t g Vt Vg) as (s & Hs & _).
  exists s. eexists. split; [exact Hs|]. split.
  - apply (submit_answer_step w t g h s Ht Hh Hs).
  - reflexivity.
Qed.

Lemma submit_stores_score_returns_none_witness :
  exists s w',
    calculate_similarity (10, 20, 30) (10, 20, 30) = Ok s
    /\ submit_answer (10, 20, 30) fresh_world = (Ok PyNone, w')
    /\ current_score (session w') = Some (PyFloat s).
Proof.
  apply (submit_stores_score_returns_none fresh_world (10, 20, 30)
           (10, 20, 30) []).
  - reflexivity.
  - reflexivity.
  - unfold valid_color, valid_channel; lia.
  - unfold valid_color, valid_channel; lia.
Defined.

(** C4. [reset_game] never raises and leaves the history as it was; it
    sets the target to a freshly drawn colour, the score to [None] and the
    submitted flag to [False]. *)
Theorem reset_game_keeps_history {rng : Type}
        (randint : Z -> Z -> rng -> Z * rng) (w : world rng) :
  exists (c : color) (g : rng),
    generate_random_color randint w = (Ok c, mkWorld (session w) g)
    /\ reset_game randint w
       = (Ok PyNone,
          mkWorld (mkSession (Some c) (score_history (session w))
                             (Some false) (Some PyNone)) g)
    /\ score_history (session (snd (reset_game randint w)))
       = score_history (session w).
Proof.
  unfold reset_game, generate_random_color, abind, draw, ret,
    set_target_color, set_submitted, set_current_score, with_session.
  cbn [session random].
  destruct (randint 0 255 (random w)) as [r g1].
  cbn [session random].
  destruct (randint 0 255 g1) as [gr g2].
  cbn [session random].
  destruct (randint 0 255 g2) as [b g3].
  cbn [session random target_color score_history submitted current_score snd].
  exists (r, gr, b), g3. repeat split.
Qed.

(** [init_session_state] never raises; afterwards every key is present,
    a history that was already there is kept, and a missing one is empty. *)
Lemma init_session_state_initialises {rng : Type}
      (randint : Z -> Z -> rng -> Z * rng) (w : world rng) :
  exists w',
    init_session_state randint w = (Ok PyNone, w')
    /\ initialised (session w')
    /\ score_history (session w')
       = Some (match score_history (session w) with
               | Some h => h
               | None => []
               end).
Proof.
  destruct w as [[t h sb cs] g].
  unfold init_session_state, generate_random_color, abind, draw, ret,
    set_target_color, set_score_history, set_submitted, set_current_score,
    with_session, initialised.
  destruct t as [t|], h as [h|], sb as [sb|], cs as [cs|];
    cbn [session random target_color score_history submitted current_score];
    try (destruct (randint 0 255 g) as [r g1];
         cbn [session random];
         destruct (randint 0 255 g1) as [gr g2];
         cbn [session random];
         destruct (randint 0 255 g2) as [b g3];
         cbn [session random target_color score_history submitted
              current_score]);
    eexists; (split; [reflexivity|]);
    cbn [session random target_color score_history submitted current_score];
    repeat split; discriminate.
Qed.

Lemma init_empty_session_example :
  init_session_state lcg_randint (mkWorld empty_session 7)
  = (Ok PyNone,
     mkWorld (mkSession (Some (52, 93, 210)) (Some []) (Some false)
                        (Some PyNone)) 712265938).
Proof. vm_compute. reflexivity. Qed.

(** ** Channels outside [0, 255] *)

(** C10, counterexample. With a channel of [2^512] the squared distance
    is [2^1024], which [math.sqrt] cannot convert to a float: the call
    raises [OverflowError]. *)
Lemma huge_channel_raises :
  calculate_similarity (2 ^ 512, 0, 0) (0, 0, 0) = Raise OverflowError.
Proof. vm_compute. reflexivity. Qed.

(** C10, as the code has it. [calculate_similarity] checks no channel
    bound.  On integer triples it returns a score whenever the squared
    distance is below [2^1024 - 2^970], and raises [OverflowError] from
    there on; it raises nothing else.  Out of range it can return less
    than [0.0]: black against [(256, 256, 256)] scores [-0.4]. *)
Theorem similarity_defined_up_to_float_range (target player : color) :
  (squared_distance target player < float_conversion_bound ->
   exists s, calculate_similarity target player = Ok s)
  /\ (float_conversion_bound <= squared_distance target player ->
      calculate_similarity target player = Raise OverflowError)
  /\ (exists s, calculate_similarity (0, 0, 0) (256, 256, 256) = Ok s
                /\ flt s 0
                /\ s = (- nearest_float 4 10)%float).
Proof.
  unfold calculate_similarity. split; [|split].
  - intros Hb. apply similarity_total_below_bound.
    split; [apply squared_distance_nonneg | exact Hb].
  - apply similarity_overflow_from_bound.
  - eexists. split; [vm_compute; reflexivity|].
    split; vm_compute; reflexivity.
Qed.

Lemma similarity_defined_up_to_float_range_witness :
  (exists s, calculate_similarity (0, 0, 0) (300, -20, 256) = Ok s)
  /\ calculate_similarity (2 ^ 512, 0, 0) (0, 0, 0) = Raise OverflowError.
Proof.
  split.
  - apply (proj1 (similarity_defined_up_to_float_range
                    (0, 0, 0) (300, -20, 256))).
    vm_compute. reflexivity.
  - apply (proj1 (proj2 (similarity_defined_up_to_float_range
                           (2 ^ 512, 0, 0) (0, 0, 0)))).
    vm_compute. discriminate.
Defined.

(** ** The random colour and the initial session *)

Lemma lcg_randint_in_range : randint_in_range lcg_randint.
Proof.
  intros lo hi g Hle. unfold lcg_randint. cbn [fst].
  pose proof (Z.mod_pos_bound
                ((g * 1103515245 + 12345) mod 2147483648) (hi - lo + 1)
                ltac:(lia)).
  lia.
Qed.

Lemma generate_random_color_run {rng : Type}
        (randint : Z -> Z -> rng -> Z * rng) (w : world rng) :
  randint_in_range randint ->
  exists (c : color) (g : rng),
    generate_random_color randint w = (Ok c, mkWorld (session w) g)
    /\ valid_color c
    /\ c = (fst (randint 0 255 (random w)),
            fst (randint 0 255 (snd (randint 0 255 (random w)))),
            fst (randint 0 255
                   (snd (randint 0 255
                           (snd (randint 0 255 (random w)))))))
    /\ g = snd (randint 0 255
                  (snd (randint 0 255 (snd (randint 0 255 (random w)))))).
Proof.
  intros Hr.
  unfold generate_random_color, abind, draw, ret. cbn [session random].
  pose proof (Hr 0 255 (random w) ltac:(lia)) as H1.
  destruct (randint 0 255 (random w)) as [r g1]. cbn [fst snd session random] in *.
  pose proof (Hr 0 255 g1 ltac:(lia)) as H2.
  destruct (randint 0 255 g1) as [gr g2]. cbn [fst snd session random] in *.
  pose proof (Hr 0 255 g2 ltac:(lia)) as H3.
  destruct (randint 0 255 g2) as [b g3]. cbn [fst snd session random] in *.
  exists (r, gr, b), g3. unfold valid_color, valid_channel.
  repeat split; try reflexivity; lia.
Qed.


(** X1. When [random.randint] keeps to the range it is given,
    [generate_random_color] returns a valid colour; it draws three times,
    red first, and leaves the session alone. *)
Theorem generate_random_color_valid {rng : Type}
        (randint : Z -> Z -> rng -> Z * rng) (w : world rng) :
  randint_in_range randint ->
  exists (c : color) (g : rng),
    generate_random_color randint w = (Ok c, mkWorld (session w) g)
    /\ valid_color c
    /\ c = (fst (randint 0 255 (random w)),
            fst (randint 0 255 (snd (randint 0 255 (random w)))),
            fst (randint 0 255
                   (snd (randint 0 255
                           (snd (randint 0 255 (random w)))))))
    /\ g = snd (randint 0 255
                  (snd (randint 0 255 (snd (randint 0 255 (random w)))))).
Proof. exact (generate_random_color_run randint w). Qed.

Lemma generate_random_color_valid_witness :
  exists (c : color) (g : Z),
    generate_random_color lcg_randint fresh_world
    = (Ok c, mkWorld (session fresh_world) g)
    /\ valid_color c
    /\ c = (fst (lcg_randint 0 255 (random fresh_world)),
            fst (lcg_randint 0 255 (snd (lcg_randint 0 255 (random fresh_world)))),
            fst (lcg_randint 0 255
                   (snd (lcg_randint 0 255
                           (snd (lcg_randint 0 255 (random fresh_world)))))))
    /\ g = snd (lcg_randint 0 255
                  (snd (lcg_randint 0 255
                          (snd (lcg_randint 0 255 (random fresh_world)))))).
Proof.
  apply (generate_random_color_valid lcg_randint fresh_world).
  exact lcg_randint_in_range.
Defined.

Ltac session_simpl :=
  cbn [session random target_color score_history submitted current_score
       fst snd].

(** On a session that has all four keys, [init_session_state] changes
    nothing and draws nothing. *)
Lemma init_session_state_noop {rng : Type}
      (randint : Z -> Z -> rng -> Z * rng) (w : world rng) :
  initialised (session w) -> init_session_state randint w = (Ok PyNone, w).
Proof.
  destruct w as [[t h sb cs] g]. unfold initialised. session_simpl.
  intros (Ht & Hh & Hsb & Hcs).
  destruct t as [t|]; [|congruence]. destruct h as [h|]; [|congruence].
  destruct sb as [sb|]; [|congruence]. destruct cs as [cs|]; [|congruence].
  reflexivity.
Qed.

Lemma init_session_state_run {rng : Type}
        (randint : Z -> Z -> rng -> Z * rng) (w : world rng) :
  exists w',
    init_session_state randint w = (Ok PyNone, w')
    /\ initialised (session w')
    /\ (forall t, target_color (session w) = Some t ->
                  target_color (session w') = Some t
                  /\ random w' = random w)
    /\ (target_color (session w) = None ->
        exists c,
          generate_random_color randint w
          = (Ok c, mkWorld (session w) (random w'))
          /\ target_color (session w') = Some c)
    /\ (forall h, score_history (session w) = Some h ->
                  score_history (session w') = Some h)
    /\ (score_history (session w) = None ->
        score_history (session w') = Some [])
    /\ (forall b, submitted (session w) = Some b ->
                  submitted (session w') = Some b)
    /\ (submitted (session w) = None ->
        submitted (session w') = Some false)
    /\ (forall v, current_score (session w) = Some v ->
                  current_score (session w') = Some v)
    /\ (current_score (session w) = None ->
        current_score (session w') = Some PyNone)
    /\ init_session_state randint w' = (Ok PyNone, w').
Proof.
  destruct (init_session_state_initialises randint w) as (w' & Hrun & Hini & _).
  exists w'. split; [exact Hrun|]. split; [exact Hini|].
  pose proof (init_session_state_noop randint w' Hini) as Hagain.
  revert Hrun Hagain. clear Hini.
  destruct w as [[t h sb cs] g].
  unfold init_session_state at 1, generate_random_color, abind, draw, ret,
    set_target_color, set_score_history, set_submitted, set_current_score,
    with_session.
  session_simpl.
  destruct t as [t|], h as [h|], sb as [sb|], cs as [cs|]; session_simpl;
    try (destruct (randint 0 255 g) as [r g1]; session_simpl;
         destruct (randint 0 255 g1) as [gr g2]; session_simpl;
         destruct (randint 0 255 g2) as [b g3]; session_simpl);
    intros Hrun Hagain; injection Hrun as <-; session_simpl;
    repeat split; try congruence; try discriminate;
    try (intros; congruence);
    intros _; eexists; split; reflexivity.
Qed.

(** X2. [init_session_state] only fills in what is missing: it never
    raises, a key that is present keeps its value, the generator is
    advanced only when the target is missing, and a second call changes
    nothing at all. *)
Theorem init_session_state_fills_missing {rng : Type}
        (randint : Z -> Z -> rng -> Z * rng) (w : world rng) :
  exists w',
    init_session_state randint w = (Ok PyNone, w')
    /\ initialised (session w')
    /\ (forall t, target_color (session w) = Some t ->
                  target_color (session w') = Some t
                  /\ random w' = random w)
    /\ (target_color (session w) = None ->
        exists c,
          generate_random_color randint w
          = (Ok c, mkWorld (session w) (random w'))
          /\ target_color (session w') = Some c)
    /\ (forall h, score_history (session w) = Some h ->
                  score_history (session w') = Some h)
    /\ (score_history (session w) = None ->
        score_history (session w') = Some [])
    /\ (forall b, submitted (session w) = Some b ->
                  submitted (session w') = Some b)
    /\ (submitted (session w) = None ->
        submitted (session w') = Some false)
    /\ (forall v, current_score (session w) = Some v ->
                  current_score (session w') = Some v)
    /\ (current_score (session w) = None ->
        current_score (session w') = Some PyNone)
    /\ init_session_state randint w' = (Ok PyNone, w').
Proof. exact (init_session_state_run randint w). Qed.

Lemma reset_game_run {rng : Type}
      (randint : Z -> Z -> rng -> Z * rng) (w : world rng) (c : color)
      (g : rng) :
  generate_random_color randint w = (Ok c, mkWorld (session w) g) ->
  reset_game randint w
  = (Ok PyNone,
     mkWorld (mkSession (Some c) (score_history (session w)) (Some false)
                        (Some PyNone)) g).
Proof.
  intros Hgen. unfold reset_game, abind. rewrite Hgen.
  reflexivity.
Qed.

Lemma Forall_firstn_of {A : Type} (P : A -> Prop) (n : nat) (l : list A) :
  Forall P l -> Forall P (firstn n l).
Proof.
  intros H. revert n. induction H as [|x l Hx _ IH]; intros [|n]; cbn;
    constructor; auto.
Qed.

(** ** The session between calls *)

Lemma well_formed_initialised (s : session_state) :
  well_formed s -> initialised s.
Proof.
  intros ((t & Ht & _) & (h & Hh & _) & Hsub). unfold initialised.
  rewrite Ht, Hh.
  destruct Hsub as [[Hs Hc]|(x & Hs & Hc)]; rewrite Hs, Hc;
    repeat split; discriminate.
Qed.

Lemma run_call_keeps_well_formed {rng : Type}
      (randint : Z -> Z -> rng -> Z * rng) (c : call) (w : world rng) :
  randint_in_range randint ->
  well_formed (session w) -> valid_call c ->
  exists w', run_call randint c w = (Ok PyNone, w')
             /\ well_formed (session w').
Proof.
  intros Hr Hwf Hc. destruct c as [| |g]; cbn [run_call].
  - exists w. split; [|exact Hwf].
    apply init_session_state_noop, well_formed_initialised, Hwf.
  - destruct (generate_random_color_run randint w Hr)
      as (c & g & Hgen & Hvalid & _).
    eexists. split; [exact (reset_game_run randint w c g Hgen)|].
    destruct Hwf as (_ & (h & Hh & Hlen & Hall & _) & _).
    unfold well_formed. session_simpl. repeat split.
    + exists c. split; [reflexivity | exact Hvalid].
    + exists h. repeat split; try assumption. intros x Hx. discriminate Hx.
    + left. split; reflexivity.
  - destruct Hwf as ((t & Ht & Vt) & (h & Hh & Hlen & Hall & _) & _).
    destruct (valid_score t g Vt Hc) as (s & Hs & Hs0 & Hs100).
    eexists. split; [apply (submit_answer_step w t g h s Ht Hh Hs)|].
    unfold well_formed. session_simpl. repeat split.
    + exists t. split; [reflexivity | exact Vt].
    + exists (push_score s h). rewrite push_score_firstn by exact Hlen.
      repeat split.
      * rewrite length_firstn. lia.
      * apply Forall_firstn_of. constructor; [split; assumption | exact Hall].
      * intros x Hx. injection Hx as <-. reflexivity.
    + right. exists s. split; reflexivity.
Qed.

(** X3. From an empty session, [init_session_state] followed by any
    calls of [submit_answer] (with valid colours), [reset_game] and
    [init_session_state], in any order, never raises, and leaves a
    session with a valid target, at most five scores in the history, all
    between 0 and 100, and the submitted flag set exactly when
    [current_score] holds a score, which is then the first entry of the
    history. *)
Theorem session_stays_well_formed {rng : Type}
        (randint : Z -> Z -> rng -> Z * rng) (calls : list call) (g : rng) :
  randint_in_range randint ->
  Forall valid_call calls ->
  exists w',
    run_calls randint (Init :: calls) (mkWorld empty_session g)
    = (Ok PyNone, w')
    /\ well_formed (session w').
Proof.
  intros Hr Hcalls.
  assert (Hstep : forall cs, Forall valid_call cs ->
            forall w : world rng, well_formed (session w) ->
            exists w', run_calls randint cs w = (Ok PyNone, w')
                       /\ well_formed (session w')).
  { induction 1 as [|c cs Hc _ IH]; intros w Hwf.
    - exists w. split; [reflexivity | exact Hwf].
    - destruct (run_call_keeps_well_formed randint c w Hr Hwf Hc)
        as (w1 & Hrun1 & Hwf1).
      destruct (IH w1 Hwf1) as (w' & Hrun & Hwf').
      exists w'. split; [|exact Hwf'].
      cbn [run_calls]. unfold abind. rewrite Hrun1. exact Hrun. }
  destruct (init_session_state_run randint (mkWorld empty_session g))
    as (w0 & Hinit & _ & _ & Htar & _ & Hhist & _ & Hsub & _ & Hcur & _).
  destruct (Htar eq_refl) as (c & Hgen & Hc).
  destruct (generate_random_color_run randint (mkWorld empty_session g) Hr)
    as (c' & g' & Hgen' & Hvalid & _).
  rewrite Hgen in Hgen'. injection Hgen' as <- _.
  assert (Hwf0 : well_formed (session w0)).
  { unfold well_formed. rewrite Hc, (Hhist eq_refl), (Hsub eq_refl),
      (Hcur eq_refl). repeat split.
    - exists c. split; [reflexivity | exact Hvalid].
    - exists []. repeat split; [cbn; lia | constructor |].
      intros x Hx. discriminate Hx.
    - left. split; reflexivity. }
  destruct (Hstep calls Hcalls w0 Hwf0) as (w' & Hrun & Hwf').
  exists w'. split; [|exact Hwf'].
  cbn [run_calls run_call]. unfold abind. rewrite Hinit. exact Hrun.
Qed.

Lemma session_stays_well_formed_witness :
  exists w',
    run_calls lcg_randint
      [Init; Submit (1, 2, 3); Submit (200, 0, 9); NewGame; Init;
       Submit (255, 255, 255)] (mkWorld empty_session 7)
    = (Ok PyNone, w')
    /\ well_formed (session w').
Proof.
  apply (session_stays_well_formed lcg_randint
           [Submit (1, 2, 3); Submit (200, 0, 9); NewGame; Init;
            Submit (255, 255, 255)] 7).
  - exact lcg_randint_in_range.
  - repeat constructor; cbn; lia.
Defined.

Lemma init_session_state_fills_missing_witness :
  exists w',
    init_session_state lcg_randint
      (mkWorld (mkSession None (Some [100%float]) None None) 7)
    = (Ok PyNone, w')
    /\ score_history (session w') = Some [100%float]
    /\ submitted (session w') = Some false
    /\ init_session_state lcg_randint w' = (Ok PyNone, w').
Proof.
  destruct (init_session_state_fills_missing lcg_randint
              (mkWorld (mkSession None (Some [100%float]) None None) 7))
    as (w' & Hrun & _ & _ & _ & Hh & _ & _ & Hs & _ & _ & Hagain).
  exists w'. split; [exact Hrun|]. split; [|split].
  - apply Hh. reflexivity.
  - apply Hs. reflexivity.
  - exact Hagain.
Defined.

(** X4. [submit_answer] on a session that lacks a key raises
    [AttributeError].  Without [target_color] nothing has been changed
    when it raises; without [score_history] the score and the submitted
    flag have already been stored.  When the score cannot be computed the
    error of [calculate_similarity] is passed on and nothing is changed. *)
Theorem submit_answer_missing_key {rng : Type} (w : world rng) (g : color) :
  (target_color (session w) = None ->
   submit_answer g w = (Raise AttributeError, w))
  /\ (forall t s,
        target_color (session w) = Some t ->
        score_history (session w) = None ->
        calculate_similarity t g = Ok s ->
        submit_answer g w
        = (Raise AttributeError,
           mkWorld (mkSession (Some t) None (Some true) (Some (PyFloat s)))
                   (random w)))
  /\ (forall t e,
        target_color (session w) = Some t ->
        calculate_similarity t g = Raise e ->
        submit_answer g w = (Raise e, w)).
Proof.
  unfold submit_answer, abind, read, lift, set_current_score, set_submitted,
    set_score_history, with_session, ret.
  split; [|split].
  - intros Ht. rewrite Ht. reflexivity.
  - intros t s Ht Hh Hs. rewrite Ht, Hs. session_simpl. rewrite Hh.
    session_simpl. rewrite Ht. reflexivity.
  - intros t e Ht He. rewrite Ht, He. reflexivity.
Qed.

Lemma submit_answer_missing_key_witness :
  submit_answer (1, 2, 3) (mkWorld empty_session 7)
  = (Raise AttributeError, mkWorld empty_session 7)
  /\ submit_answer (10, 20, 30)
       (mkWorld (mkSession (Some (10, 20, 30)) None None None) 7)
     = (Raise AttributeError,
        mkWorld (mkSession (Some (10, 20, 30)) None (Some true)
                           (Some (PyFloat 100))) 7)
  /\ submit_answer (0, 0, 0)
       (mkWorld (mkSession (Some (2 ^ 512, 0, 0)) (Some []) (Some false)
                           (Some PyNone)) 7)
     = (Raise OverflowError,
        mkWorld (mkSession (Some (2 ^ 512, 0, 0)) (Some []) (Some false)
                           (Some PyNone)) 7).
Proof.
  split; [|split].
  - apply (proj1 (submit_answer_missing_key (mkWorld empty_session 7) (1, 2, 3))).
    reflexivity.
  - apply (proj1 (proj2 (submit_answer_missing_key
                           (mkWorld (mkSession (Some (10, 20, 30)) None None None) 7)
                           (10, 20, 30))) (10, 20, 30) 100%float).
    + reflexivity.
    + reflexivity.
    + vm_compute. reflexivity.
  - apply (proj2 (proj2 (submit_answer_missing_key
                           (mkWorld (mkSession (Some (2 ^ 512, 0, 0)) (Some [])
                                               (Some false) (Some PyNone)) 7)
                           (0, 0, 0))) (2 ^ 512, 0, 0) OverflowError).
    + reflexivity.
    + vm_compute. reflexivity.
Defined.



(** X6. Once the history holds five scores or more, [submit_answer]
    puts the new score in front and drops exactly one entry, the last:
    the history keeps its length, so a history longer than five is never
    cut back to five. *)
Theorem submit_drops_only_the_last {rng : Type} (w : world rng)
        (t g : color) (h : list float) (s : float) :
  target_color (session w) = Some t ->
  score_history (session w) = Some h ->
  calculate_similarity t g = Ok s ->
  (5 <= length h)%nat ->
  exists w',
    submit_answer g w = (Ok PyNone, w')
    /\ score_history (session w') = Some (s :: removelast h)
    /\ length (s :: removelast h) = length h.
Proof.
  intros Ht Hh Hs Hlen. eexists.
  split; [apply (submit_answer_step w t g h s Ht Hh Hs)|].
  session_simpl. unfold push_score, list_insert.
  change (firstn 0 h ++ s :: skipn 0 h) with (s :: h).
  assert (E : (5 <? Z.of_nat (length (s :: h))) = true)
    by (apply Z.ltb_lt; cbn [length]; lia).
  rewrite E.
  destruct h as [|x h']; [cbn in Hlen; lia|].
  split; [reflexivity|].
  cbn [length]. rewrite removelast_firstn_len, length_firstn.
  cbn [length]. lia.
Qed.

Lemma submit_drops_only_the_last_witness :
  exists w',
    submit_answer (10, 20, 30)
      (mkWorld (mkSession (Some (10, 20, 30))
                          (Some [90; 80; 70; 60; 50; 40; 30]%float)
                          (Some false) (Some PyNone)) 0)
    = (Ok PyNone, w')
    /\ score_history (session w')
       = Some (100%float :: removelast [90; 80; 70; 60; 50; 40; 30]%float)
    /\ length (100%float :: removelast [90; 80; 70; 60; 50; 40; 30]%float)
       = length [90; 80; 70; 60; 50; 40; 30]%float.
Proof.
  apply (submit_drops_only_the_last
           (mkWorld (mkSession (Some (10, 20, 30))
                               (Some [90; 80; 70; 60; 50; 40; 30]%float)
                               (Some false) (Some PyNone)) 0)
           (10, 20, 30) (10, 20, 30)).
  - reflexivity.
  - reflexivity.
  - vm_compute. reflexivity.
  - cbn. lia.
Defined.

(** ** What the score depends on *)

(** X7. The score depends only on how far apart the two colours are in
    each channel: it is unchanged when both colours are shifted by the
    same amounts, when the channels are reordered in both alike, and in
    general whenever the three absolute differences are the same. *)
Theorem score_depends_on_differences (t g t' g' : color) :
  (let '(t0, t1, t2) := t in
   let '(g0, g1, g2) := g in
   let '(t0', t1', t2') := t' in
   let '(g0', g1', g2') := g' in
   Z.abs (t0 - g0) = Z.abs (t0' - g0')
   /\ Z.abs (t1 - g1) = Z.abs (t1' - g1')
   /\ Z.abs (t2 - g2) = Z.abs (t2' - g2')) ->
  calculate_similarity t g = calculate_similarity t' g'
  /\ (let '(t0, t1, t2) := t in
      let '(g0, g1, g2) := g in
      calculate_similarity (t1, t2, t0) (g1, g2, g0)
      = calculate_similarity t g
      /\ calculate_similarity (t1, t0, t2) (g1, g0, g2)
         = calculate_similarity t g).
Proof.
  destruct t as [[t0 t1] t2], g as [[g0 g1] g2].
  destruct t' as [[t0' t1'] t2'], g' as [[g0' g1'] g2'].
  intros (H0 & H1 & H2).
  assert (Sq : forall a b, Z.abs a = Z.abs b -> a ^ 2 = b ^ 2).
  { intros a b Hab. rewrite !Z.pow_2_r.
    rewrite <- (Z.abs_square a), <- (Z.abs_square b), Hab. reflexivity. }
  unfold calculate_similarity, squared_distance. repeat split.
  - rewrite (Sq _ _ H0), (Sq _ _ H1), (Sq _ _ H2). reflexivity.
  - f_equal. ring.
  - f_equal. ring.
Qed.

Lemma score_depends_on_differences_witness :
  calculate_similarity (10, 20, 30) (13, 16, 30)
  = calculate_similarity (250, 4, 0) (247, 8, 0)
  /\ (calculate_similarity (20, 30, 10) (16, 30, 13)
      = calculate_similarity (10, 20, 30) (13, 16, 30)
      /\ calculate_similarity (20, 10, 30) (16, 13, 30)
         = calculate_similarity (10, 20, 30) (13, 16, 30)).
Proof.
  apply (score_depends_on_differences
           (10, 20, 30) (13, 16, 30) (250, 4, 0) (247, 8, 0)).
  cbn. lia.
Defined.

(** ** The colour code *)

Module HexFacts.
Import Ascii String Hex.
Local Open Scope string_scope.
Local Open Scope Z_scope.

Lemma digit_value_hex_digit (d : Z) :
  0 <= d < 16 -> digit_value (hex_digit d) = Some d.
Proof.
  intros Hd.
  assert (C : check_range 16 0 digit_ok = true) by (vm_compute; reflexivity).
  pose proof (check_range_sound digit_ok 16 0 C d ltac:(cbn; lia)) as H.
  unfold digit_ok in H.
  destruct (digit_value (hex_digit d)) as [v|]; [|discriminate H].
  apply Z.eqb_eq in H. now subst v.
Qed.

Lemma read_hex_digits (fuel : nat) :
  forall n acc, 0 <= n < 16 ^ Z.of_nat fuel ->
  read_hex 0 (hex_digits fuel n acc) = read_hex n acc.
Proof.
  induction fuel as [|fuel IH]; intros n acc Hn.
  - cbn in Hn. assert (n = 0) by lia. subst n. reflexivity.
  - cbn [hex_digits].
    pose proof (Z.div_mod n 16 ltac:(lia)) as E.
    pose proof (Z.mod_pos_bound n 16 ltac:(lia)) as Hr.
    destruct (n / 16 =? 0) eqn:Q.
    + apply Z.eqb_eq in Q. cbn [read_hex].
      rewrite digit_value_hex_digit by exact Hr. f_equal. lia.
    + rewrite IH.
      * cbn [read_hex]. rewrite digit_value_hex_digit by exact Hr.
        f_equal. lia.
      * rewrite Nat2Z.inj_succ, Z.pow_succ_r in Hn by lia.
        split; [apply Z.div_pos; lia|].
        apply Z.div_lt_upper_bound; lia.
Qed.

Lemma read_hex_to_hex (n : Z) : 0 <= n -> read_hex 0 (to_hex n) = Some n.
Proof.
  intros Hn. unfold to_hex. rewrite read_hex_digits; [reflexivity|].
  split; [exact Hn|].
  rewrite Nat2Z.inj_succ, Z2Nat.id by apply Z.log2_nonneg.
  destruct (Z.eq_dec n 0) as [->|Hne]; [reflexivity|].
  apply Z.lt_le_trans with (2 ^ Z.succ (Z.log2 n)).
  - apply Z.log2_spec. lia.
  - apply Z.pow_le_mono_l. lia.
Qed.

Lemma read_hex_zeros (k : nat) (s : string) :
  read_hex 0 (zeros k ++ s) = read_hex 0 s.
Proof.
  induction k as [|k IH]; [reflexivity|].
  cbn [zeros append read_hex]. exact IH.
Qed.

Lemma length_append (s1 s2 : string) :
  length (s1 ++ s2) = (length s1 + length s2)%nat.
Proof.
  induction s1 as [|c s1 IH]; [reflexivity|].
  cbn [append length]. now rewrite IH.
Qed.

Lemma length_zeros (k : nat) : length (zeros k) = k.
Proof. induction k as [|k IH]; [reflexivity|]. cbn. now rewrite IH. Qed.

Lemma two_digits_for_valid (v : Z) :
  valid_channel v ->
  exists a b, format_02x v = String a (String b EmptyString)
              /\ read_hex 0 (String a (String b EmptyString)) = Some v.
Proof.
  intros Hv.
  assert (C : check_range 256 0 two_digits_ok = true)
    by (vm_compute; reflexivity).
  pose proof (check_range_sound two_digits_ok 256 0 C v
                ltac:(unfold valid_channel in Hv; cbn; lia)) as H.
  unfold two_digits_ok in H.
  destruct (format_02x v) as [|a [|b [|c rest]]]; try discriminate H.
  exists a, b. split; [reflexivity|].
  destruct (read_hex 0 (String a (String b EmptyString))) as [x|];
    [|discriminate H].
  apply Z.eqb_eq in H. now subst x.
Qed.

Lemma rgb_to_hex_read_back (r g b : Z) :
  valid_color (r, g, b) ->
  length (rgb_to_hex r g b) = 7%nat
  /\ read_color (rgb_to_hex r g b) = Some (r, g, b).
Proof.
  intros (Hr & Hg & Hb).
  destruct (two_digits_for_valid r Hr) as (r1 & r2 & Er & Rr).
  destruct (two_digits_for_valid g Hg) as (g1 & g2 & Eg & Rg).
  destruct (two_digits_for_valid b Hb) as (b1 & b2 & Eb & Rb).
  unfold rgb_to_hex. rewrite Er, Eg, Eb. cbn [append length].
  split; [reflexivity|].
  unfold read_color. rewrite Rr, Rg, Rb. reflexivity.
Qed.

(** X8. For a valid colour [rgb_to_hex] gives a code of seven
    characters, [#] and two lower-case hexadecimal digits for each
    channel, from which the three channels can be read back; so two valid
    colours with the same code are the same colour. *)
Theorem rgb_to_hex_valid_color (r g b : Z) :
  valid_color (r, g, b) ->
  length (rgb_to_hex r g b) = 7%nat
  /\ read_color (rgb_to_hex r g b) = Some (r, g, b)
  /\ forall r' g' b', valid_color (r', g', b') ->
       rgb_to_hex r g b = rgb_to_hex r' g' b' -> (r, g, b) = (r', g', b').
Proof.
  intros V. destruct (rgb_to_hex_read_back r g b V) as [L R].
  split; [exact L|]. split; [exact R|].
  intros r' g' b' V' E.
  destruct (rgb_to_hex_read_back r' g' b' V') as [_ R'].
  rewrite E in R. rewrite R in R'. congruence.
Qed.

Lemma rgb_to_hex_valid_color_witness :
  length (rgb_to_hex 255 0 128) = 7%nat
  /\ read_color (rgb_to_hex 255 0 128) = Some (255, 0, 128)
  /\ forall r' g' b', valid_color (r', g', b') ->
       rgb_to_hex 255 0 128 = rgb_to_hex r' g' b' ->
       (255, 0, 128) = (r', g', b').
Proof.
  apply (rgb_to_hex_valid_color 255 0 128).
  unfold valid_color, valid_channel. lia.
Defined.

(** X9. [{n:02x}] on any integer: the digits written read back as the
    magnitude of [n], a minus sign comes first exactly when [n] is
    negative, and at least two characters are written.  A channel above
    255 takes more than two digits, and then two different triples can
    get the same code. *)
Theorem format_02x_reads_back (n : Z) :
  (0 <= n -> read_hex 0 (format_02x n) = Some n)
  /\ (n < 0 -> exists digits,
        format_02x n = String "-" digits
        /\ read_hex 0 digits = Some (- n))
  /\ (2 <= length (format_02x n))%nat
  /\ (rgb_to_hex 1 564 5 = rgb_to_hex 1 35 1029
      /\ rgb_to_hex 1 564 5 = "#0123405").
Proof.
  unfold format_02x. split; [|split; [|split]].
  - intros Hn. assert (E : (n <? 0) = false) by (apply Z.ltb_ge; lia).
    rewrite E. cbn [append]. rewrite read_hex_zeros.
    rewrite Z.abs_eq by exact Hn. apply read_hex_to_hex. exact Hn.
  - intros Hn. assert (E : (n <? 0) = true) by (apply Z.ltb_lt; lia).
    rewrite E. cbn [append]. eexists. split; [reflexivity|].
    rewrite read_hex_zeros. rewrite Z.abs_neq by lia.
    apply read_hex_to_hex. lia.
  - rewrite !length_append, length_zeros. lia.
  - split; vm_compute; reflexivity.
Qed.

Lemma format_02x_reads_back_witness :
  read_hex 0 (format_02x 300) = Some 300
  /\ exists digits,
       format_02x (-5) = String "-" digits
       /\ read_hex 0 digits = Some (- -5).
Proof.
  split.
  - apply (proj1 (format_02x_reads_back 300)). lia.
  - apply (proj1 (proj2 (format_02x_reads_back (-5)))). lia.
Defined.

End HexFacts.

(** ** The order of scores *)

Lemma SFleb_finite (m1 m2 : positive) (e1 e2 : Z) :
  SFleb (S754_finite false m1 e1) (S754_finite false m2 e2) = true
  <-> e1 < e2 \/ (e1 = e2 /\ Zpos m1 <= Zpos m2).
Proof.
  unfold SFleb, SFcompare.
  destruct (Z.compare_spec e1 e2) as [E|E|E].
  - fold (Pos.compare m1 m2).
    destruct (Pos.compare_spec m1 m2) as [C|C|C].
    + subst. split; [right; split; lia | reflexivity].
    + split; [intros _; right; split; [exact E|]| reflexivity].
      apply Z.lt_le_incl. exact C.
    + split; [discriminate|]. intros [H|[_ H]]; [lia|].
      exfalso. apply (Pos.lt_irrefl m1).
      apply Pos.le_lt_trans with m2; [exact H | exact C].
  - split; [intros _; left; exact E | reflexivity].
  - split; [discriminate | intros [H|[H _]]; lia].
Qed.

Lemma digits2_pos_lower (m : positive) :
  2 ^ (Zpos (digits2_pos m) - 1) <= Zpos m.
Proof.
  induction m as [m IH|m IH|]; cbn [digits2_pos].
  - rewrite Pos2Z.inj_succ.
    replace (Z.succ (Z.pos (digits2_pos m)) - 1)
      with (Z.succ (Z.pos (digits2_pos m) - 1)) by lia.
    rewrite Z.pow_succ_r by lia. lia.
  - rewrite Pos2Z.inj_succ.
    replace (Z.succ (Z.pos (digits2_pos m)) - 1)
      with (Z.succ (Z.pos (digits2_pos m) - 1)) by lia.
    rewrite Z.pow_succ_r by lia. lia.
  - reflexivity.
Qed.

(** What validity says of a finite double: the exponent is at least
    -1074, the mantissa is below [2^53], and at least [2^52] unless the
    exponent is the least one. *)
Lemma valid_finite (s : bool) (m : positive) (e : Z) :
  valid_binary (S754_finite s m e) = true ->
  -1074 <= e /\ Zpos m < 2 ^ 53 /\ (-1074 < e -> 2 ^ 52 <= Zpos m).
Proof.
  intros Hv. pose proof (valid_mantissa_bound s m e Hv) as Hm.
  cbn [SpecFloat.valid_binary] in Hv.
  unfold bounded, canonical_mantissa, fexp, SpecFloat.emin, emax, prec in Hv.
  apply andb_true_iff in Hv as [Hv _]. apply Z.eqb_eq in Hv.
  split; [lia|]. split; [exact Hm|].
  intros He.
  assert (Hd : Zpos (digits2_pos m) = 53) by lia.
  pose proof (digits2_pos_lower m) as Hl. rewrite Hd in Hl. exact Hl.
Qed.

Lemma div_half_even_mono (a b den : Z) :
  0 < den -> a <= b -> div_half_even a den <= div_half_even b den.
Proof.
  intros Hden Hab.
  pose proof (div_half_even_bounds a den Hden) as Ba.
  pose proof (div_half_even_bounds b den Hden) as Bb.
  pose proof (Z.div_le_mono a b den Hden Hab) as Hq.
  destruct (Z.eq_dec (a / den) (b / den)) as [E|NE]; [|lia].
  pose proof (Z.div_mod a den ltac:(lia)) as Ea.
  pose proof (Z.div_mod b den ltac:(lia)) as Eb.
  assert (Hr : a mod den <= b mod den) by (rewrite E in Ea; lia).
  unfold div_half_even. rewrite E.
  destruct (Z.compare_spec (2 * (a mod den)) den) as [Ca|Ca|Ca];
    destruct (Z.compare_spec (2 * (b mod den)) den) as [Cb|Cb|Cb];
    try lia; destruct (Z.even (b / den)); lia.
Qed.

Lemma div_half_even_scale (a den c : Z) :
  0 < den -> 0 < c ->
  div_half_even (a * c) (den * c) = div_half_even a den.
Proof.
  intros Hden Hc. unfold div_half_even.
  rewrite Z.div_mul_cancel_r by lia.
  rewrite Z.mul_mod_distr_r by lia.
  set (r := a mod den). set (q := a / den).
  destruct (Z.compare_spec (2 * (r * c)) (den * c)) as [C1|C1|C1];
    destruct (Z.compare_spec (2 * r) den) as [C2|C2|C2];
    try reflexivity; exfalso; nia.
Qed.

(** The non-negative floats are ordered by [<=]: the comparison is
    transitive on them. *)
Lemma SFleb_trans (a b c : spec_float) :
  SFleb (S754_zero false) a = true ->
  SFleb a b = true -> SFleb b c = true -> SFleb a c = true.
Proof.
  intros H0 Hab Hbc.
  destruct a as [sa|sa| |sa ma ea]; try discriminate H0;
    try (destruct sa; try discriminate H0);
    destruct b as [sb|sb| |sb mb eb]; try discriminate Hab;
    try (destruct sb; try discriminate Hab);
    destruct c as [sc|sc| |sc mc ec]; try discriminate Hbc;
    try (destruct sc; try discriminate Hbc);
    try reflexivity.
  apply SFleb_finite. apply SFleb_finite in Hab, Hbc. lia.
Qed.

Lemma fle_trans (a b c : float) :
  fle 0 a -> fle a b -> fle b c -> fle a c.
Proof.
  unfold fle. rewrite !leb_spec.
  change (Prim2SF 0) with (S754_zero false).
  apply SFleb_trans.
Qed.

(** A float between [0.0] and [100.0] is a zero, or positive with an
    exponent of at most -46. *)
Lemma in_range_shape (x : float) :
  fle 0 x -> fle x 100 ->
  (exists s, Prim2SF x = S754_zero s)
  \/ (exists m e,
        Prim2SF x = S754_finite false m e
        /\ (e < -46 \/ (e = -46 /\ Zpos m <= 7036874417766400))
        /\ -1074 <= e /\ Zpos m < 2 ^ 53
        /\ (-1074 < e -> 2 ^ 52 <= Zpos m)).
Proof.
  unfold fle. rewrite !leb_spec.
  change (Prim2SF 0) with (S754_zero false).
  change (Prim2SF 100) with sf_hundred.
  pose proof (Prim2SF_valid x) as Hv.
  destruct (Prim2SF x) as [s|s| |s m e]; intros H0 H100.
  - left. exists s. reflexivity.
  - destruct s; discriminate.
  - discriminate H0.
  - destruct s; [discriminate H0|].
    right. exists m, e. split; [reflexivity|].
    unfold sf_hundred in H100. apply SFleb_finite in H100.
    split; [exact H100|]. apply (valid_finite false m e Hv).
Qed.

Lemma tenths_of_zero (x : float) (s : bool) :
  Prim2SF x = S754_zero s -> tenths x = 0.
Proof. intros H. unfold tenths. rewrite H. reflexivity. Qed.

Lemma tenths_of_finite (x : float) (m : positive) (e : Z) :
  Prim2SF x = S754_finite false m e -> e < 0 ->
  tenths x = div_half_even (10 * Zpos m) (2 ^ (- e)).
Proof.
  intros H He. unfold tenths. rewrite H.
  assert (E : (0 <=? e) = false) by (apply Z.leb_gt; exact He).
  rewrite E. reflexivity.
Qed.

Lemma tenths_range (x : float) :
  fle 0 x -> fle x 100 -> 0 <= tenths x <= 1000.
Proof.
  intros H0 H100.
  destruct (in_range_shape x H0 H100)
    as [[s Hs]|(m & e & Hx & He & _ & Hm & _)].
  - rewrite (tenths_of_zero x s Hs). lia.
  - rewrite (tenths_of_finite x m e Hx) by lia.
    assert (Hden : 0 < 2 ^ (- e)) by (apply Z.pow_pos_nonneg; lia).
    pose proof (div_half_even_bounds (10 * Z.pos m) _ Hden) as Hb.
    assert (0 <= 10 * Z.pos m / 2 ^ (- e)) by (apply Z.div_pos; lia).
    split; [lia|].
    apply div_half_even_below; [exact Hden|].
    destruct He as [He|[He Hle]].
    + assert (2 ^ 47 <= 2 ^ (- e)) by (apply Z.pow_le_mono_r; lia). lia.
    + rewrite He. change (2 ^ (- -46)) with 70368744177664. lia.
Qed.

Lemma tenths_mono (x y : float) :
  fle 0 x -> fle x y -> fle y 100 -> tenths x <= tenths y.
Proof.
  intros H0x Hxy Hy100.
  assert (H00 : fle 0 0) by reflexivity.
  pose proof (fle_trans 0 x y H00 H0x Hxy) as H0y.
  pose proof (fle_trans x y 100 H0x Hxy Hy100) as Hx100.
  pose proof (tenths_range y H0y Hy100) as Ry.
  destruct (in_range_shape x H0x Hx100)
    as [[sx Hx]|(mx & ex & Hx & Hex & Hlx & Hmx & _)].
  - rewrite (tenths_of_zero x sx Hx). lia.
  - destruct (in_range_shape y H0y Hy100)
      as [[sy Hy]|(my & ey & Hy & Hey & _ & _ & Hny)].
    + unfold fle in Hxy. rewrite leb_spec, Hx, Hy in Hxy. discriminate Hxy.
    + unfold fle in Hxy. rewrite leb_spec, Hx, Hy in Hxy.
      apply SFleb_finite in Hxy.
      rewrite (tenths_of_finite x mx ex Hx), (tenths_of_finite y my ey Hy)
        by lia.
      assert (Hdx : 0 < 2 ^ (- ex)) by (apply Z.pow_pos_nonneg; lia).
      destruct Hxy as [Hlt|[-> Hle]].
      * set (c := 2 ^ (ey - ex)).
        assert (Hc : 2 <= c).
        { change 2 with (2 ^ 1). apply Z.pow_le_mono_r; lia. }
        assert (Hdy : 0 < 2 ^ (- ey)) by (apply Z.pow_pos_nonneg; lia).
        assert (E : 2 ^ (- ex) = 2 ^ (- ey) * c).
        { unfold c. rewrite <- Z.pow_add_r by lia. f_equal. lia. }
        rewrite <- (div_half_even_scale (10 * Z.pos my) (2 ^ (- ey)) c)
          by lia.
        rewrite E. apply div_half_even_mono; [lia|].
        specialize (Hny ltac:(lia)).
        assert (2 ^ 52 * 2 <= Z.pos my * c)
          by (apply Z.mul_le_mono_nonneg; lia).
        change (2 ^ 53) with (2 ^ 52 * 2) in Hmx. lia.
      * apply div_half_even_mono; [exact Hdx | lia].
Qed.

Lemma round1_of_zero (x : float) (s : bool) :
  Prim2SF x = S754_zero s -> round1 x = x.
Proof. intros H. unfold round1. rewrite H. reflexivity. Qed.

Lemma round1_of_finite (x : float) (m : positive) (e : Z) :
  Prim2SF x = S754_finite false m e ->
  round1 x = nearest_float (tenths x) 10.
Proof. intros H. unfold round1, tenths. rewrite H. reflexivity. Qed.

(** The doubles nearest to 0.0, 0.1, ..., 100.0 are in increasing
    order. *)
Lemma tenths_ascending :
  check_range 1000 0
    (fun k => (nearest_float k 10 <=? nearest_float (k + 1) 10)%float)
  = true.
Proof. vm_compute. reflexivity. Qed.

Lemma nearest_float_nonneg (k : Z) :
  0 <= k <= 1000 -> fle 0 (nearest_float k 10).
Proof.
  intros Hk.
  pose proof (check_range_sound _ _ _ tenths_in_range k
                ltac:(cbn; lia)) as H.
  cbv beta in H. apply andb_true_iff in H as [H _]. exact H.
Qed.

Lemma nearest_float_mono (k1 k2 : Z) :
  0 <= k1 -> k1 <= k2 -> k2 <= 1000 ->
  fle (nearest_float k1 10) (nearest_float k2 10).
Proof.
  intros H1 H12 H2.
  assert (Hd : forall d : nat, k1 + Z.of_nat d <= 1000 ->
            fle (nearest_float k1 10) (nearest_float (k1 + Z.of_nat d) 10)).
  { induction d as [|d IH]; intros Hb.
    - rewrite Z.add_0_r.
      pose proof (nearest_float_nonneg k1 ltac:(lia)) as Hn.
      unfold fle in *. rewrite leb_spec in *.
      change (Prim2SF 0) with (S754_zero false) in Hn.
      destruct (Prim2SF (nearest_float k1 10)) as [s|s| |s m e];
        try discriminate Hn; try (destruct s; try discriminate Hn);
        try reflexivity.
      apply SFleb_finite. right. split; [reflexivity | apply Z.le_refl].
    - rewrite Nat2Z.inj_succ in *.
      apply fle_trans with (nearest_float (k1 + Z.of_nat d) 10).
      + apply nearest_float_nonneg. lia.
      + apply IH. lia.
      + pose proof (check_range_sound _ _ _ tenths_ascending
                      (k1 + Z.of_nat d) ltac:(cbn; lia)) as H.
        cbv beta in H. replace (k1 + Z.succ (Z.of_nat d))
          with (k1 + Z.of_nat d + 1) by lia. exact H. }
  replace k2 with (k1 + Z.of_nat (Z.to_nat (k2 - k1)))
    by (rewrite Z2Nat.id; lia).
  apply Hd. rewrite Z2Nat.id; lia.
Qed.

Lemma check_decreasing_sound (fuel : nat) :
  forall n prev,
    check_decreasing fuel n prev = true ->
    unrounded_similarity n = Ok prev ->
    forall k, n <= k < n + Z.of_nat fuel ->
    exists x y,
      unrounded_similarity k = Ok x
      /\ unrounded_similarity (k + 1) = Ok y
      /\ fle y x /\ fle 0 y.
Proof.
  induction fuel as [|fuel IH]; intros n prev H Hn k Hk.
  - cbn in Hk. lia.
  - cbn [check_decreasing] in H.
    destruct (unrounded_similarity (n + 1)) as [x|e] eqn:Hx;
      [|discriminate H].
    apply andb_true_iff in H as [H Hrest].
    apply andb_true_iff in H as [Hle H0].
    destruct (Z.eq_dec k n) as [->|Hne].
    + exists prev, x. repeat split; assumption.
    + apply (IH (n + 1) x Hrest Hx). lia.
Qed.

(** The value handed to [round], tried on every squared distance two
    valid colours can have: it never rises from one distance to the
    next. *)
Lemma unrounded_decreasing :
  check_decreasing (Z.to_nat 195075) 0 100 = true.
Proof. vm_cast_no_check (@eq_refl bool true). Qed.

Lemma unrounded_in_range (n : Z) :
  0 <= n <= 195075 ->
  exists x, unrounded_similarity n = Ok x /\ fle 0 x /\ fle x 100.
Proof.
  intros Hn.
  pose proof (check_range_sound _ _ _ every_valid_distance_in_range n
                ltac:(rewrite Z2Nat.id; lia)) as H.
  cbv beta in H.
  destruct (unrounded_similarity n) as [x|e]; [|discriminate H].
  cbn [score_in_range] in H. apply andb_true_iff in H as [H0 H100].
  exists x. repeat split; assumption.
Qed.

Lemma tenths_decreasing (n1 n2 : Z) :
  0 <= n1 -> n1 <= n2 -> n2 <= 195075 ->
  exists x1 x2,
    unrounded_similarity n1 = Ok x1 /\ unrounded_similarity n2 = Ok x2
    /\ tenths x2 <= tenths x1.
Proof.
  intros H1 H12 H2.
  assert (Hd : forall d : nat, n1 + Z.of_nat d <= 195075 ->
            exists x1 x2,
              unrounded_similarity n1 = Ok x1
              /\ unrounded_similarity (n1 + Z.of_nat d) = Ok x2
              /\ tenths x2 <= tenths x1).
  { induction d as [|d IH]; intros Hb.
    - rewrite Z.add_0_r.
      destruct (unrounded_in_range n1 ltac:(lia)) as (x & Hx & _).
      exists x, x. repeat split; try assumption. lia.
    - rewrite Nat2Z.inj_succ in *.
      destruct (IH ltac:(lia)) as (x1 & x2 & Hx1 & Hx2 & Hle).
      assert (U0 : unrounded_similarity 0 = Ok 100%float)
        by (vm_compute; reflexivity).
      destruct (check_decreasing_sound _ 0 100%float unrounded_decreasing U0
                  (n1 + Z.of_nat d) ltac:(rewrite Z2Nat.id; lia))
        as (x & y & Hx & Hy & Hyx & H0y).
      rewrite Hx2 in Hx. injection Hx as <-.
      destruct (unrounded_in_range (n1 + Z.of_nat d) ltac:(lia))
        as (x' & Hx' & _ & Hx100).
      rewrite Hx2 in Hx'. injection Hx' as <-.
      exists x1, y. split; [exact Hx1|]. split.
      + replace (n1 + Z.succ (Z.of_nat d)) with (n1 + Z.of_nat d + 1) by lia.
        exact Hy.
      + pose proof (tenths_mono y x2 H0y Hyx Hx100). lia. }
  replace n2 with (n1 + Z.of_nat (Z.to_nat (n2 - n1)))
    by (rewrite Z2Nat.id; lia).
  apply Hd. rewrite Z2Nat.id; lia.
Qed.

(** The scores of two squared distances in the valid range: the larger
    distance has the score that is not larger. *)
Lemma similarity_monotone (n1 n2 : Z) :
  0 <= n1 -> n1 <= n2 -> n2 <= 195075 ->
  exists s1 s2,
    similarity_of_squared_distance n1 = Ok s1
    /\ similarity_of_squared_distance n2 = Ok s2
    /\ fle s2 s1 /\ fle 0 s2 /\ fle s1 100.
Proof.
  intros H1 H12 H2.
  destruct (tenths_decreasing n1 n2 H1 H12 H2) as (x1 & x2 & Hx1 & Hx2 & Ht).
  destruct (unrounded_in_range n1 ltac:(lia)) as (x1' & Hx1' & H01 & H1001).
  rewrite Hx1 in Hx1'. injection Hx1' as <-.
  destruct (unrounded_in_range n2 ltac:(lia)) as (x2' & Hx2' & H02 & H1002).
  rewrite Hx2 in Hx2'. injection Hx2' as <-.
  unfold similarity_of_squared_distance. rewrite Hx1, Hx2. cbn [bind].
  exists (round1 x1), (round1 x2). split; [reflexivity|].
  split; [reflexivity|].
  destruct (round1_in_range x1 H01 H1001) as [R01 R1001].
  destruct (round1_in_range x2 H02 H1002) as [R02 R1002].
  split; [|split; assumption].
  pose proof (tenths_range x1 H01 H1001) as T1.
  pose proof (tenths_range x2 H02 H1002) as T2.
  destruct (in_range_shape x2 H02 H1002) as [[s2 Hs2]|(m2 & e2 & Hs2 & _)].
  - rewrite (round1_of_zero x2 s2 Hs2).
    unfold fle in *. rewrite leb_spec in *. rewrite Hs2.
    change (Prim2SF 0) with (S754_zero false) in R01.
    destruct (Prim2SF (round1 x1)); exact R01.
  - rewrite (round1_of_finite x2 m2 e2 Hs2).
    destruct (in_range_shape x1 H01 H1001) as [[s1 Hs1]|(m1 & e1 & Hs1 & _)].
    + rewrite (round1_of_zero x1 s1 Hs1).
      rewrite (tenths_of_zero x1 s1 Hs1) in Ht.
      replace (tenths x2) with 0 by lia. exact H01.
    + rewrite (round1_of_finite x1 m1 e1 Hs1).
      apply nearest_float_mono; lia.
Qed.

(** X10. Of two pairs of valid colours, the pair that is further apart
    never has the higher score. *)
Theorem score_never_rises_with_distance (t1 g1 t2 g2 : color) :
  valid_color t1 -> valid_color g1 -> valid_color t2 -> valid_color g2 ->
  squared_distance t1 g1 <= squared_distance t2 g2 ->
  exists s1 s2,
    calculate_similarity t1 g1 = Ok s1
    /\ calculate_similarity t2 g2 = Ok s2
    /\ fle s2 s1.
Proof.
  intros V1 W1 V2 W2 Hle.
  pose proof (squared_distance_valid t1 g1 V1 W1) as B1.
  pose proof (squared_distance_valid t2 g2 V2 W2) as B2.
  destruct (similarity_monotone _ _ (proj1 B1) Hle (proj2 B2))
    as (s1 & s2 & E1 & E2 & H & _).
  exists s1, s2. repeat split; assumption.
Qed.

Lemma score_never_rises_with_distance_witness :
  exists s1 s2,
    calculate_similarity (10, 20, 30) (12, 20, 30) = Ok s1
    /\ calculate_similarity (200, 100, 0) (190, 100, 7) = Ok s2
    /\ fle s2 s1.
Proof.
  apply score_never_rises_with_distance;
    try (unfold valid_color, valid_channel; lia).
  vm_compute. discriminate.
Defined.

Lemma color_eq_dec (a b : color) : {a = b} + {a <> b}.
Proof. repeat decide equality. Qed.

Lemma squared_distance_zero (t g : color) :
  squared_distance t g = 0 -> t = g.
Proof.
  destruct t as [[t0 t1] t2], g as [[g0 g1] g2]. unfold squared_distance.
  intros H.
  assert (H0 : 0 <= (t0 - g0) ^ 2)
    by (rewrite Z.pow_2_r; apply Z.square_nonneg).
  assert (H1 : 0 <= (t1 - g1) ^ 2)
    by (rewrite Z.pow_2_r; apply Z.square_nonneg).
  assert (H2 : 0 <= (t2 - g2) ^ 2)
    by (rewrite Z.pow_2_r; apply Z.square_nonneg).
  assert (E0 : (t0 - g0) ^ 2 = 0) by lia.
  assert (E1 : (t1 - g1) ^ 2 = 0) by lia.
  assert (E2 : (t2 - g2) ^ 2 = 0) by lia.
  apply Z.pow_eq_0_iff in E0, E1, E2.
  f_equal; [f_equal|]; lia.
Qed.

(** X11. Between valid colours the score is [100.0] exactly when the
    two colours are the same; any other guess scores [99.8] at most. *)
Theorem perfect_score_only_for_equal (t g : color) :
  valid_color t -> valid_color g ->
  (calculate_similarity t g = Ok 100%float <-> t = g)
  /\ (t <> g ->
      exists s, calculate_similarity t g = Ok s /\ fle s f99_8).
Proof.
  intros Vt Vg.
  pose proof (squared_distance_valid t g Vt Vg) as B.
  assert (Hfar : t <> g ->
            exists s, calculate_similarity t g = Ok s /\ fle s f99_8).
  { intros Hne.
    assert (Hn : 1 <= squared_distance t g).
    { destruct (Z.eq_dec (squared_distance t g) 0) as [E|E]; [|lia].
      exfalso. apply Hne, squared_distance_zero, E. }
    destruct (similarity_monotone 1 _ ltac:(lia) Hn (proj2 B))
      as (s1 & s2 & E1 & E2 & H & _).
    assert (S1 : similarity_of_squared_distance 1 = Ok f99_8)
      by (vm_compute; reflexivity).
    rewrite S1 in E1. injection E1 as <-.
    exists s2. split; assumption. }
  split; [|exact Hfar]. split.
  - intros H100. destruct (color_eq_dec t g) as [E|NE]; [exact E|].
    destruct (Hfar NE) as (s & Hs & Hle). rewrite H100 in Hs.
    injection Hs as <-. vm_compute in Hle. discriminate Hle.
  - intros <-. unfold calculate_similarity.
    rewrite squared_distance_refl. vm_compute. reflexivity.
Qed.

Lemma perfect_score_only_for_equal_witness :
  (calculate_similarity (10, 20, 30) (10, 20, 31) = Ok 100%float
   <-> (10, 20, 30) = (10, 20, 31))
  /\ ((10, 20, 30) <> (10, 20, 31) ->
      exists s, calculate_similarity (10, 20, 30) (10, 20, 31) = Ok s
                /\ fle s f99_8).
Proof.
  apply perfect_score_only_for_equal; unfold valid_color, valid_channel; lia.
Defined.

Lemma feqb_refl (a : float) : fle 0 a -> (a =? a)%float = true.
Proof.
  unfold fle. rewrite leb_spec, eqb_spec.
  change (Prim2SF 0) with (S754_zero false).
  destruct (Prim2SF a) as [s|s| |s m e]; intros H; try discriminate H;
    try reflexivity.
  - destruct s; [discriminate H | reflexivity].
  - destruct s; [discriminate H|].
    unfold SFeqb, SFcompare. rewrite Z.compare_refl.
    fold (Pos.compare m m). rewrite Pos.compare_refl. reflexivity.
Qed.

(** X12. The score of two valid colours is a whole number of tenths
    between 0 and 1000: it equals the double nearest to [k / 10] for an
    integer [k] in that range, so at most 1001 different scores occur. *)
Theorem score_is_a_number_of_tenths (t g : color) :
  valid_color t -> valid_color g ->
  exists s k,
    calculate_similarity t g = Ok s
    /\ 0 <= k <= 1000
    /\ (s =? nearest_float k 10)%float = true.
Proof.
  intros Vt Vg.
  pose proof (squared_distance_valid t g Vt Vg) as B.
  destruct (unrounded_in_range _ B) as (x & Hx & H0 & H100).
  unfold calculate_similarity, similarity_of_squared_distance.
  rewrite Hx. cbn [bind].
  exists (round1 x), (tenths x). split; [reflexivity|].
  split; [apply tenths_range; assumption|].
  destruct (in_range_shape x H0 H100) as [[s Hs]|(m & e & Hs & _)].
  - rewrite (round1_of_zero x s Hs), (tenths_of_zero x s Hs).
    rewrite eqb_spec, Hs. reflexivity.
  - rewrite (round1_of_finite x m e Hs).
    apply feqb_refl, nearest_float_nonneg, tenths_range; assumption.
Qed.

Lemma score_is_a_number_of_tenths_witness :
  exists s k,
    calculate_similarity (255, 0, 0) (0, 255, 0) = Ok s
    /\ 0 <= k <= 1000
    /\ (s =? nearest_float k 10)%float = true.
Proof.
  apply score_is_a_number_of_tenths; unfold valid_color, valid_channel; lia.
Defined.

Lemma threshold_passes_up (c s2 s1 : float) :
  fle 0 c -> fle s2 s1 ->
  (c <=? s2)%float = true -> (c <=? s1)%float = true.
Proof. intros H0 H21 Hc. exact (fle_trans c s2 s1 H0 Hc H21). Qed.

(** X13. The band of the result display follows the distance: of two
    pairs of valid colours, the pair that is further apart is never
    shown in a better band. *)
Theorem banner_never_better_when_further (t1 g1 t2 g2 : color) :
  valid_color t1 -> valid_color g1 -> valid_color t2 -> valid_color g2 ->
  squared_distance t1 g1 <= squared_distance t2 g2 ->
  exists s1 s2,
    calculate_similarity t1 g1 = Ok s1
    /\ calculate_similarity t2 g2 = Ok s2
    /\ banner_rank (score_banner s2) <= banner_rank (score_banner s1).
Proof.
  intros V1 W1 V2 W2 Hle.
  pose proof (squared_distance_valid t1 g1 V1 W1) as B1.
  pose proof (squared_distance_valid t2 g2 V2 W2) as B2.
  destruct (similarity_monotone _ _ (proj1 B1) Hle (proj2 B2))
    as (s1 & s2 & E1 & E2 & H & _).
  exists s1, s2. split; [exact E1|]. split; [exact E2|].
  assert (P95 := threshold_passes_up 95 s2 s1 eq_refl H).
  assert (P80 := threshold_passes_up 80 s2 s1 eq_refl H).
  assert (P60 := threshold_passes_up 60 s2 s1 eq_refl H).
  unfold score_banner.
  destruct (95 <=? s2)%float.
  - rewrite (P95 eq_refl). cbn. lia.
  - destruct (80 <=? s2)%float.
    + rewrite (P80 eq_refl). destruct (95 <=? s1)%float; cbn; lia.
    + destruct (60 <=? s2)%float.
      * rewrite (P60 eq_refl).
        destruct (95 <=? s1)%float; [cbn; lia|].
        destruct (80 <=? s1)%float; cbn; lia.
      * destruct (95 <=? s1)%float; [cbn; lia|].
        destruct (80 <=? s1)%float; [cbn; lia|].
        destruct (60 <=? s1)%float; cbn; lia.
Qed.

Lemma banner_never_better_when_further_witness :
  exists s1 s2,
    calculate_similarity (10, 20, 30) (12, 20, 30) = Ok s1
    /\ calculate_similarity (200, 100, 0) (100, 100, 90) = Ok s2
    /\ banner_rank (score_banner s2) <= banner_rank (score_banner s1).
Proof.
  apply banner_never_better_when_further;
    try (unfold valid_color, valid_channel; lia).
  vm_compute. discriminate.
Defined.

(** ** The history over a whole session *)

(** Any calls on a session that holds a valid target and a history of
    at most five scores: every call returns, and the history ends up
    holding the newest five of the old entries and the scores computed
    on the way, newest first. *)
Lemma run_calls_history {rng : Type} (randint : Z -> Z -> rng -> Z * rng)
      (calls : list call) :
  randint_in_range randint ->
  Forall valid_call calls ->
  forall (w : world rng) (t : color) (h : list float),
    target_color (session w) = Some t ->
    valid_color t ->
    score_history (session w) = Some h ->
    (length h <= 5)%nat ->
    exists w',
      run_calls randint calls w = (Ok PyNone, w')
      /\ score_history (session w')
         = Some (firstn 5 (rev (scores_of_calls randint calls w) ++ h))
      /\ length (scores_of_calls randint calls w) = submit_count calls.
Proof.
  intros Hr. induction 1 as [|c rest Hc _ IH]; intros w t h Ht Vt Hh Hlen.
  - exists w. cbn [scores_of_calls rev app submit_count length].
    repeat split. rewrite firstn_all2 by exact Hlen. exact Hh.
  - destruct c as [| |g].
    + destruct (init_session_state_run randint w)
        as (w1 & Hrun & _ & Htar & _ & Hhist & _).
      destruct (Htar t Ht) as [Ht1 _]. pose proof (Hhist h Hh) as Hh1.
      destruct (IH w1 t h Ht1 Vt Hh1 Hlen) as (w' & Hrest & Hh' & Hn).
      exists w'. cbn [run_calls scores_of_calls submit_count run_call].
      unfold abind. rewrite Hrun. cbn [snd].
      repeat split; assumption.
    + destruct (generate_random_color_run randint w Hr)
        as (c & g & Hgen & Vc & _).
      pose proof (reset_game_run randint w c g Hgen) as Hrun.
      destruct (IH (mkWorld (mkSession (Some c) (score_history (session w))
                                      (Some false) (Some PyNone)) g)
                   c h eq_refl Vc Hh Hlen) as (w' & Hrest & Hh' & Hn).
      exists w'. cbn [run_calls scores_of_calls submit_count run_call].
      unfold abind. rewrite Hrun. cbn [snd].
      repeat split; assumption.
    + cbn [valid_call] in Hc.
      destruct (valid_score t g Vt Hc) as (s & Hs & _).
      pose proof (submit_answer_step w t g h s Ht Hh Hs) as Hrun.
      assert (Hlen1 : (length (push_score s h) <= 5)%nat).
      { rewrite push_score_firstn by exact Hlen. rewrite length_firstn. lia. }
      destruct (IH (mkWorld (mkSession (Some t) (Some (push_score s h))
                                      (Some true) (Some (PyFloat s)))
                            (random w))
                   t (push_score s h) eq_refl Vt eq_refl Hlen1)
        as (w' & Hrest & Hh' & Hn).
      exists w'. cbn [run_calls scores_of_calls submit_count run_call].
      unfold abind. rewrite Hrun, Ht, Hs. cbn [snd length].
      split; [exact Hrest|]. split; [|now rewrite Hn].
      rewrite Hh'. f_equal. rewrite push_score_firstn by exact Hlen.
      rewrite firstn_app_firstn. cbn [rev]. rewrite <- app_assoc.
      reflexivity.
Qed.

(** C3. On one session, starting from an empty history, any run of
    calls in which [submit_answer] is called [n] times with valid
    colours, with [reset_game] and [init_session_state] in between at
    will, returns and leaves the newest [min n 5] scores in the history,
    newest first, the newest at index 0; each score is the one computed
    against the target current at that submission.  In particular for
    [n] submissions in a row; six of them scoring 50, 60, 70, 80, 90, 100
    leave [100, 90, 80, 70, 60]; and seven submissions spread over three
    rounds leave the last five. *)
Theorem history_after_submissions :
  (forall (rng : Type) (randint : Z -> Z -> rng -> Z * rng) (w : world rng)
          (target : color) (calls : list call),
     randint_in_range randint ->
     target_color (session w) = Some target ->
     valid_color target ->
     score_history (session w) = Some [] ->
     Forall valid_call calls ->
     exists w',
       run_calls randint calls w = (Ok PyNone, w')
       /\ length (scores_of_calls randint calls w) = submit_count calls
       /\ score_history (session w')
          = Some (firstn 5 (rev (scores_of_calls randint calls w)))
       /\ length (firstn 5 (rev (scores_of_calls randint calls w)))
          = Nat.min (submit_count calls) 5
       /\ (length (firstn 5 (rev (scores_of_calls randint calls w))) <= 5)%nat
       /\ (forall earlier s,
             scores_of_calls randint calls w = earlier ++ [s] ->
             nth_error (firstn 5 (rev (scores_of_calls randint calls w))) 0
             = Some s))
  /\ (forall (rng : Type) (w : world rng) (target : color)
             (guesses : list color),
        target_color (session w) = Some target ->
        score_history (session w) = Some [] ->
        valid_color target ->
        Forall valid_color guesses ->
        exists scores w',
          scores_of target guesses = Ok scores
          /\ submit_all guesses w = (Ok PyNone, w')
          /\ score_history (session w') = Some (firstn 5 (rev scores))
          /\ length (firstn 5 (rev scores)) = Nat.min (length guesses) 5
          /\ (length (firstn 5 (rev scores)) <= 5)%nat
          /\ (forall earlier s, scores = earlier ++ [s] ->
              nth_error (firstn 5 (rev scores)) 0 = Some s
              /\ current_score (session w') = Some (PyFloat s)))
  /\ (exists w' : world Z,
        scores_of (0, 0, 0) six_guesses = Ok [50; 60; 70; 80; 90; 100]%float
        /\ submit_all six_guesses black_world = (Ok PyNone, w')
        /\ score_history (session w') = Some [100; 90; 80; 70; 60]%float)
  /\ (exists w' : world Z,
        run_calls lcg_randint three_rounds black_world = (Ok PyNone, w')
        /\ submit_count three_rounds = 7%nat
        /\ scores_of_calls lcg_randint three_rounds black_world
           = map (fun k => nearest_float k 10)
                 [500; 1000; 1000; 363; 478; 453; 356]
        /\ score_history (session w')
           = Some (map (fun k => nearest_float k 10)
                       [356; 453; 478; 363; 1000]))
  /\ fold_left (fun h s => push_score s h) [50; 60; 70; 80; 90; 100]%float []
     = [100; 90; 80; 70; 60]%float.
Proof.
  split; [|split; [|split; [|split]]].
  - intros rng randint w target calls Hr Ht Vt Hh Hcalls.
    destruct (run_calls_history randint calls Hr Hcalls w target [] Ht Vt Hh
                (Nat.le_0_l 5)) as (w' & Hrun & Hh' & Hn).
    rewrite app_nil_r in Hh'.
    exists w'. split; [exact Hrun|]. split; [exact Hn|].
    split; [exact Hh'|]. split; [|split].
    + rewrite length_firstn, length_rev, Hn. apply Nat.min_comm.
    + rewrite length_firstn. apply Nat.le_min_l.
    + intros earlier s E. rewrite E, rev_app_distr. reflexivity.
  - intros rng w target guesses Ht Hh Vt Vg.
    destruct (scores_of_valid target guesses Vt Vg) as (scores & Hsc & Hlen).
    destruct (submit_all_history target guesses w [] scores Ht Hh
                (Nat.le_0_l 5) Hsc) as (w' & Hrun & _ & Hh' & Hcur).
    rewrite app_nil_r in Hh'.
    exists scores, w'. repeat split; try assumption.
    + rewrite length_firstn, length_rev, Hlen. apply Nat.min_comm.
    + rewrite length_firstn. apply Nat.le_min_l.
    + subst scores. rewrite rev_app_distr. reflexivity.
    + exact (Hcur earlier s H).
  - eexists. split; [vm_compute; reflexivity|].
    split; vm_compute; reflexivity.
  - eexists. split; [vm_compute; reflexivity|].
    repeat split; vm_compute; reflexivity.
  - vm_compute. reflexivity.
Qed.

Lemma history_after_submissions_witness :
  exists w',
    run_calls lcg_randint three_rounds black_world = (Ok PyNone, w')
    /\ length (scores_of_calls lcg_randint three_rounds black_world)
       = submit_count three_rounds
    /\ score_history (session w')
       = Some (firstn 5 (rev (scores_of_calls lcg_randint three_rounds
                                              black_world)))
    /\ length (firstn 5 (rev (scores_of_calls lcg_randint three_rounds
                                              black_world)))
       = Nat.min (submit_count three_rounds) 5
    /\ (length (firstn 5 (rev (scores_of_calls lcg_randint three_rounds
                                               black_world))) <= 5)%nat
    /\ (forall earlier s,
          scores_of_calls lcg_randint three_rounds black_world
          = earlier ++ [s] ->
          nth_error (firstn 5 (rev (scores_of_calls lcg_randint three_rounds
                                                    black_world))) 0
          = Some s).
Proof.
  apply (proj1 history_after_submissions Z lcg_randint black_world (0, 0, 0)
               three_rounds).
  - exact lcg_randint_in_range.
  - reflexivity.
  - unfold valid_color, valid_channel; lia.
  - reflexivity.
  - unfold three_rounds. repeat constructor; cbn; lia.
Defined.
